(** * Admission pipeline, circuit breaker, rate limiter and DLP scanner

    A shallow embedding of the request-admission and resilience core of the
    ai-devops-platform repository:

    - [Re]             : the fragment of Python's [re] used by the DLP patterns
                         (backtracking, leftmost, greedy, [re.IGNORECASE]);
    - [DLP]            : llm-security-gateway/src/dlp/engine.py;
    - [Breaker]        : mcp-aws-server/src/utils/circuit_breaker.py;
    - [Limiter]        : llm-security-gateway/src/utils/rate_limiter.py;
    - [Policy]         : llm-security-gateway/src/rbac/policy_engine.py;
    - [Gateway]        : llm-security-gateway/src/gateway/main.py together with
                         utils/audit_logger.py.

    Text is ASCII ([string]); timestamps are integers ([Z]). *)

From stdpp Require Import gmap strings list pretty.
From Stdlib Require Import ZArith QArith.QArith_base Ascii String.

Local Open Scope string_scope.
Local Open Scope Z_scope.

(** Python's exceptions, as far as the code distinguishes them. *)
Inductive exn :=
| CircuitBreakerError (func_name : string) (retry_after : Z)
| HTTPException (status_code : Z) (detail : string)
| Exception (msg : string).

(** The result of running a Python call: a value or a raised exception. *)
Inductive outcome (A : Type) :=
| Return (a : A)
| Raise (e : exn).
Arguments Return {A} a.
Arguments Raise {A} e.

(* ================================================================== *)
(** ** Regular expressions: the fragment of [re] the patterns use *)
(* ================================================================== *)

Module Re.

(** An item of a character set: a character, a range, [\d] or [\s]. *)
Inductive citem :=
| CChar (c : ascii)
| CRange (lo hi : ascii)
| CDigit
| CSpace.

(** A character set [[...]] or [[^...]]. *)
Record cls := Cls { cls_neg : bool; cls_items : list citem }.

(** Pattern syntax. [Rep lo hi c] is the greedy repeat [c{lo,hi}] of a
    one-character set ([hi = None] for no upper bound), which covers
    [?], [*], [+], [{n}], [{n,m}] and [{n,}] as the patterns use them. *)
Inductive regex :=
| Eps
| Chr (c : cls)
| Cat (r1 r2 : regex)
| Alt (r1 r2 : regex)
| Rep (lo : nat) (hi : option nat) (c : cls)
| WordB.

Definition code (a : ascii) : nat := nat_of_ascii a.

Definition between (lo hi n : nat) : bool := (lo <=? n)%nat && (n <=? hi)%nat.

Definition is_digit (a : ascii) : bool := between 48 57 (code a).

(** [\s] on ASCII text: tab..carriage return, the four separators
    0x1c..0x1f, and space. *)
Definition is_space (a : ascii) : bool :=
  between 9 13 (code a) || between 28 31 (code a) || (code a =? 32)%nat.

Definition is_upper (a : ascii) : bool := between 65 90 (code a).
Definition is_lower (a : ascii) : bool := between 97 122 (code a).

(** [\w] on ASCII text. *)
Definition is_word (a : ascii) : bool :=
  is_digit a || is_upper a || is_lower a || (code a =? 95)%nat.

Definition lower (a : ascii) : ascii :=
  if is_upper a then ascii_of_nat (code a + 32) else a.
Definition upper (a : ascii) : ascii :=
  if is_lower a then ascii_of_nat (code a - 32) else a.

Definition item_match (it : citem) (a : ascii) : bool :=
  match it with
  | CChar c => (code c =? code a)%nat
  | CRange lo hi => between (code lo) (code hi) (code a)
  | CDigit => is_digit a
  | CSpace => is_space a
  end.

Definition cls_raw (c : cls) (a : ascii) : bool :=
  xorb (cls_neg c) (existsb (fun it => item_match it a) (cls_items c)).

(** Set membership under [re.IGNORECASE]: the lower-cased character is
    tried, then the upper-cased one. *)
Definition cls_match (c : cls) (a : ascii) : bool :=
  cls_raw c (lower a) || cls_raw c (upper a).

Definition word_before (prev : option ascii) : bool :=
  match prev with Some a => is_word a | None => false end.
Definition word_after (s : list ascii) : bool :=
  match s with a :: _ => is_word a | [] => false end.

Section Matcher.
Context {R : Type}.

(** Greedy bounded repeat of a one-character test, with backtracking
    into shorter repeats when the continuation fails. *)
Fixpoint rep (p : ascii -> bool) (lo : nat) (hi : option nat)
    (prev : option ascii) (s : list ascii)
    (k : option ascii -> list ascii -> option R) : option R :=
  let stop := match lo with O => k prev s | S _ => None end in
  match hi with
  | Some O => stop
  | _ =>
    match s with
    | a :: s' =>
      if p a then
        match rep p (Nat.pred lo) (Nat.pred <$> hi) (Some a) s' k with
        | Some x => Some x
        | None => stop
        end
      else stop
    | [] => stop
    end
  end.

(** The backtracking matcher: [prev] is the character before the
    current position (for [\b]), [s] the rest of the text, [k] the
    continuation tried on every way of matching, in priority order. *)
Fixpoint run (r : regex) (prev : option ascii) (s : list ascii)
    (k : option ascii -> list ascii -> option R) : option R :=
  match r with
  | Eps => k prev s
  | Chr c =>
    match s with
    | a :: s' => if cls_match c a then k (Some a) s' else None
    | [] => None
    end
  | Cat r1 r2 => run r1 prev s (fun p' s' => run r2 p' s' k)
  | Alt r1 r2 =>
    match run r1 prev s k with
    | Some x => Some x
    | None => run r2 prev s k
    end
  | Rep lo hi c => rep (cls_match c) lo hi prev s k
  | WordB => if xorb (word_before prev) (word_after s) then k prev s else None
  end.
End Matcher.

(** One match attempt at the current position; the rest of the text after
    the match. With [must_advance] an empty match is refused. *)
Definition match_at (r : regex) (must_advance : bool)
    (prev : option ascii) (s : list ascii) : option (list ascii) :=
  run r prev s (fun _ s' =>
    if must_advance && (List.length s' =? List.length s)%nat then None else Some s').

(** [re.search(r, text, re.IGNORECASE) is not None], from a position. *)
Fixpoint search_from (r : regex) (prev : option ascii) (s : list ascii) : bool :=
  match match_at r false prev s with
  | Some _ => true
  | None =>
    match s with
    | [] => false
    | a :: s' => search_from r (Some a) s'
    end
  end.

Definition search (r : regex) (text : string) : bool :=
  search_from r None (list_ascii_of_string text).

(** [re.sub(r, repl, text, flags=re.IGNORECASE)] for a replacement
    without backslashes: leftmost non-overlapping matches are replaced.
    [skip] counts the characters of the current match still to drop. *)
Fixpoint sub_from (r : regex) (repl : list ascii) (skip : nat)
    (prev : option ascii) (s : list ascii) : list ascii :=
  match s with
  | [] =>
    match match_at r false prev [] with
    | Some _ => repl
    | None => []
    end
  | a :: s' =>
    match skip with
    | S n => sub_from r repl n (Some a) s'
    | O =>
      match match_at r false prev s with
      | Some rest =>
        let len := (List.length s - List.length rest)%nat in
        match len with
        | S n => (repl ++ sub_from r repl n (Some a) s')%list
        | O =>
          (* an empty match: replaced, then a non-empty match is
             looked for at the same position *)
          (repl ++
           match match_at r true prev s with
           | Some rest' =>
             repl ++ sub_from r repl (Nat.pred (List.length s - List.length rest'))
                       (Some a) s'
           | None => a :: sub_from r repl O (Some a) s'
           end)%list
        end
      | None => a :: sub_from r repl O (Some a) s'
      end
    end
  end.

Definition sub (r : regex) (repl : string) (text : string) : string :=
  string_of_list_ascii
    (sub_from r (list_ascii_of_string repl) O None (list_ascii_of_string text)).

(** *** Pattern-building helpers *)

Definition chr (a : ascii) : regex := Chr (Cls false [CChar a]).

Fixpoint lit (s : string) : regex :=
  match s with
  | EmptyString => Eps
  | String a EmptyString => chr a
  | String a s' => Cat (chr a) (lit s')
  end.

Fixpoint seq (rs : list regex) : regex :=
  match rs with
  | [] => Eps
  | [r] => r
  | r :: rs' => Cat r (seq rs')
  end.

Definition opt (r : regex) : regex := Alt r Eps.

Definition digit : cls := Cls false [CDigit].
Definition space : cls := Cls false [CSpace].
Definition dquote : ascii := ascii_of_nat 34.
Definition squote : ascii := ascii_of_nat 39.
Definition quote : cls := Cls false [CChar squote; CChar dquote].

End Re.

(* ================================================================== *)
(** ** llm-security-gateway/src/dlp/engine.py *)
(* ================================================================== *)

Module DLP.
Import Re.

(** presidio_analyzer.RecognizerResult, as far as the engine reads it. *)
Record RecognizerResult := {
  entity_type : string;
  span_start : nat;
  span_end : nat;
  score : Q;
}.

(** @dataclass DLPResult *)
Record DLPResult := {
  blocked : bool;
  pii_detected : bool;
  redacted_text : string;
  violations : list string;
  pii_entities : list string;
  confidence_scores : gmap string Q;
}.

(** class DLPEngine. [patterns] is the insertion-ordered dict of named
    patterns, [block_patterns] the set of blocking names. The Presidio
    analyzer and anonymizer are external collaborators held by the
    engine: [analyzer text language] returns the entity spans,
    [anonymizer text results operators] the anonymized text. *)
Record DLPEngine := {
  analyzer : string -> string -> list RecognizerResult;
  anonymizer : string -> list RecognizerResult -> list (string * string) -> string;
  patterns : list (string * regex);
  block_patterns : gset string;
}.

(** *** The patterns of [__init__] *)

Definition sep : cls := Cls false [CChar "-"; CSpace].
Definition assign : cls := Cls false [CChar ":"; CChar "="].
Definition key_chars : cls :=
  Cls false [CRange "a" "z"; CRange "A" "Z"; CRange "0" "9"; CChar "_"; CChar "-"].
Definition aws_chars : cls := Cls false [CRange "0" "9"; CRange "A" "Z"].
Definition token_chars : cls :=
  Cls false [CRange "a" "z"; CRange "A" "Z"; CRange "0" "9"; CChar "-";
             CChar "."; CChar "_"; CChar "~"; CChar "+"; CChar "/"].
Definition secret_chars : cls := Cls true [CSpace; CChar squote; CChar dquote].

(** \b\d{4}[-\s]?\d{4}[-\s]?\d{4}[-\s]?\d{4}\b *)
Definition credit_card_re : regex :=
  seq [WordB; Rep 4 (Some 4%nat) digit; Rep 0 (Some 1%nat) sep;
       Rep 4 (Some 4%nat) digit; Rep 0 (Some 1%nat) sep;
       Rep 4 (Some 4%nat) digit; Rep 0 (Some 1%nat) sep;
       Rep 4 (Some 4%nat) digit; WordB].

(** \b\d{3}-\d{2}-\d{4}\b *)
Definition ssn_re : regex :=
  seq [WordB; Rep 3 (Some 3%nat) digit; chr "-"; Rep 2 (Some 2%nat) digit;
       chr "-"; Rep 4 (Some 4%nat) digit; WordB].

(** (?i)(api[_-]?key|apikey)['Q]?\s*[:=]\s*['Q]?([a-zA-Z0-9_\-]{32,}),
    writing Q for the double quote. *)
Definition api_key_re : regex :=
  seq [Alt (seq [lit "api"; Rep 0 (Some 1%nat) (Cls false [CChar "_"; CChar "-"]);
                 lit "key"])
           (lit "apikey");
       Rep 0 (Some 1%nat) quote; Rep 0 None space; Chr assign; Rep 0 None space;
       Rep 0 (Some 1%nat) quote; Rep 32 None key_chars].

(** AKIA[0-9A-Z]{16} *)
Definition aws_key_re : regex :=
  seq [lit "AKIA"; Rep 16 (Some 16%nat) aws_chars].

(** -----BEGIN (RSA |EC |OPENSSH )?PRIVATE KEY----- *)
Definition private_key_re : regex :=
  seq [lit "-----BEGIN ";
       opt (Alt (lit "RSA ") (Alt (lit "EC ") (lit "OPENSSH ")));
       lit "PRIVATE KEY-----"].

(** bearer\s+[a-zA-Z0-9\-._~+/]+=* *)
Definition bearer_token_re : regex :=
  seq [lit "bearer"; Rep 1 None space; Rep 1 None token_chars;
       Rep 0 None (Cls false [CChar "="])].

(** (?i)(password|passwd|pwd)['Q]?\s*[:=]\s*['Q]?([^\s'Q]+),
    writing Q for the double quote. *)
Definition password_re : regex :=
  seq [Alt (lit "password") (Alt (lit "passwd") (lit "pwd"));
       Rep 0 (Some 1%nat) quote; Rep 0 None space; Chr assign; Rep 0 None space;
       Rep 0 (Some 1%nat) quote; Rep 1 None secret_chars].

(** \b10\.\d{1,3}\.\d{1,3}\.\d{1,3}\b *)
Definition ip_internal_re : regex :=
  seq [WordB; lit "10"; chr "."; Rep 1 (Some 3%nat) digit; chr ".";
       Rep 1 (Some 3%nat) digit; chr "."; Rep 1 (Some 3%nat) digit; WordB].

Definition default_patterns : list (string * regex) :=
  [("credit_card", credit_card_re);
   ("ssn", ssn_re);
   ("api_key", api_key_re);
   ("aws_key", aws_key_re);
   ("private_key", private_key_re);
   ("bearer_token", bearer_token_re);
   ("password", password_re);
   ("ip_internal", ip_internal_re)].

Definition default_block_patterns : gset string :=
  {["api_key"; "aws_key"; "private_key"; "password"]}.

(** DLPEngine.__init__, given the two Presidio engines. *)
Definition init (an : string -> string -> list RecognizerResult)
    (anon : string -> list RecognizerResult -> list (string * string) -> string)
    : DLPEngine :=
  {| analyzer := an; anonymizer := anon;
     patterns := default_patterns; block_patterns := default_block_patterns |}.

(** dict lookup and dict assignment on the ordered pattern table. *)
Fixpoint get (name : string) (d : list (string * regex)) : option regex :=
  match d with
  | [] => None
  | (n, r) :: d' => if String.eqb n name then Some r else get name d'
  end.

Fixpoint set (name : string) (r : regex) (d : list (string * regex))
    : list (string * regex) :=
  match d with
  | [] => [(name, r)]
  | (n, r0) :: d' =>
    if String.eqb n name then (n, r) :: d' else (n, r0) :: set name r d'
  end.

(** DLPEngine._scan_patterns *)
Definition _scan_patterns (self : DLPEngine) (text : string) : list string :=
  fst <$> filter (fun p => Is_true (search (snd p) text)) (patterns self).

(** The operators passed to the anonymizer. *)
Definition operators : list (string * string) :=
  [("DEFAULT", "<REDACTED>");
   ("PERSON", "<NAME_REDACTED>");
   ("EMAIL_ADDRESS", "<EMAIL_REDACTED>");
   ("PHONE_NUMBER", "<PHONE_REDACTED>");
   ("CREDIT_CARD", "<CARD_REDACTED>");
   ("US_SSN", "<SSN_REDACTED>")].

(** str.upper *)
Fixpoint str_upper (s : string) : string :=
  match s with
  | EmptyString => EmptyString
  | String a s' => String (upper a) (str_upper s')
  end.

(** f"<{pattern_name.upper()}_REDACTED>" *)
Definition placeholder (pattern_name : string) : string :=
  "<" ++ str_upper pattern_name ++ "_REDACTED>".

(** DLPEngine._redact_text *)
Definition _redact_text (self : DLPEngine) (text : string)
    (pii_results : list RecognizerResult) (pattern_violations : list string)
    : string :=
  let redacted :=
    match pii_results with
    | [] => text
    | _ => anonymizer self text pii_results operators
    end in
  foldl (fun redacted pattern_name =>
           match get pattern_name (patterns self) with
           | Some pattern => sub pattern (placeholder pattern_name) redacted
           | None => redacted
           end)
        redacted pattern_violations.

Definition nonempty {A} (l : list A) : bool :=
  match l with [] => false | _ => true end.

(** DLPEngine.scan. [list(set(...))] keeps one copy of each entity type;
    the order Python gives them is not specified, here it is the order of
    first detection. *)
Definition scan (self : DLPEngine) (text : string) (mode : string)
    (language : string) : DLPResult :=
  let pattern_violations := _scan_patterns self text in
  let violations := pattern_violations in
  let blocked :=
    existsb (fun pattern => bool_decide (pattern ∈ block_patterns self))
            pattern_violations in
  let pii_results := analyzer self text language in
  let pii_entities :=
    match pii_results with
    | [] => []
    | _ => remove_dups (entity_type <$> pii_results)
    end in
  let redacted_text :=
    if String.eqb mode "redact" && (nonempty pattern_violations || nonempty pii_results)
    then _redact_text self text pii_results pattern_violations
    else text in
  let confidence_scores :=
    foldl (fun d result => <[entity_type result := score result]> d) ∅ pii_results in
  {| blocked := blocked && String.eqb mode "block";
     pii_detected := nonempty pii_results;
     redacted_text := redacted_text;
     violations := violations;
     pii_entities := pii_entities;
     confidence_scores := confidence_scores |}.


(** For running the engine on concrete text: an analyzer that detects
    nothing, with an anonymizer that is then never needed. *)
Definition silent : string -> string -> list RecognizerResult := fun _ _ => [].

Definition no_anonymizer
    : string -> list RecognizerResult -> list (string * string) -> string :=
  fun text _ _ => text.

Definition plain_engine : DLPEngine := init silent no_anonymizer.

(** dict.get(entity_type, DEFAULT) on the operator table. *)
Fixpoint operator_for (ops : list (string * string)) (entity : string) : string :=
  match ops with
  | [] => "<REDACTED>"
  | (n, v) :: ops' => if String.eqb n entity then v else operator_for ops' entity
  end.

(** The replace operator on spans listed from the last to the first. *)
Definition replace_spans
    : string -> list RecognizerResult -> list (string * string) -> string :=
  fun text results ops =>
    foldl (fun t res =>
             substring 0 (span_start res) t
             ++ operator_for ops (entity_type res)
             ++ substring (span_end res) (String.length t - span_end res) t)
          text results.

(** An analyzer that knows one e-mail address. *)
Definition email_analyzer : string -> string -> list RecognizerResult :=
  fun text _ =>
    if String.eqb text "contact bob@example.com"
    then [{| entity_type := "EMAIL_ADDRESS"; span_start := 8; span_end := 23;
             score := 1%Q |}]
    else [].

Definition email_engine : DLPEngine := init email_analyzer replace_spans.

End DLP.

(* ================================================================== *)
(** ** mcp-aws-server/src/utils/circuit_breaker.py *)
(* ================================================================== *)

Module Breaker.

Inductive State := CLOSED | OPEN | HALF_OPEN.

(** class CircuitBreaker *)
Record CircuitBreaker := {
  failure_threshold : Z;
  timeout : Z;
  failure_count : Z;
  last_failure_time : Z;
  state : State;
}.

(** CircuitBreaker.__init__ *)
Definition init (failure_threshold timeout : Z) : CircuitBreaker :=
  {| failure_threshold := failure_threshold; timeout := timeout;
     failure_count := 0; last_failure_time := 0; state := CLOSED |}.

Definition set_state (st : State) (self : CircuitBreaker) : CircuitBreaker :=
  {| failure_threshold := failure_threshold self; timeout := timeout self;
     failure_count := failure_count self;
     last_failure_time := last_failure_time self; state := st |}.

Definition set_failure_count (n : Z) (self : CircuitBreaker) : CircuitBreaker :=
  {| failure_threshold := failure_threshold self; timeout := timeout self;
     failure_count := n;
     last_failure_time := last_failure_time self; state := state self |}.

Definition set_last_failure_time (t : Z) (self : CircuitBreaker) : CircuitBreaker :=
  {| failure_threshold := failure_threshold self; timeout := timeout self;
     failure_count := failure_count self;
     last_failure_time := t; state := state self |}.

(** The state check at the head of [wrapper]: while OPEN the call is
    refused unless the timeout has elapsed, in which case the breaker
    enters HALF_OPEN. [now] is [time.time()]. *)
Definition check (self : CircuitBreaker) (func_name : string) (now : Z)
    : outcome CircuitBreaker :=
  match state self with
  | OPEN =>
    if timeout self <=? now - last_failure_time self
    then Return (set_state HALF_OPEN self)
    else Raise (CircuitBreakerError func_name (timeout self))
  | _ => Return self
  end.

(** The success branch after the wrapped call returned. *)
Definition on_success (self : CircuitBreaker) : CircuitBreaker :=
  match state self with
  | HALF_OPEN => set_failure_count 0 (set_state CLOSED self)
  | _ => self
  end.

(** The [except Exception] branch; [now] is [time.time()] read there. *)
Definition on_failure (self : CircuitBreaker) (now : Z) : CircuitBreaker :=
  let self := set_failure_count (failure_count self + 1) self in
  let self := set_last_failure_time now self in
  if failure_threshold self <=? failure_count self
  then set_state OPEN self
  else self.

Section Wrapper.
(** The world the wrapped coroutine runs in, with its wall clock. *)
Context {W A : Type} (clock : W -> Z).

(** The coroutine [wrapper] returned by [CircuitBreaker.call(func)]:
    the outcome for the caller, the breaker afterwards, and the world. *)
Definition wrapper (self : CircuitBreaker) (func_name : string)
    (func : W -> outcome A * W) (w : W)
    : outcome A * CircuitBreaker * W :=
  match check self func_name (clock w) with
  | Raise e => (Raise e, self, w)
  | Return self =>
    match func w with
    | (Return result, w') => (Return result, on_success self, w')
    | (Raise e, w') => (Raise e, on_failure self (clock w'), w')
    end
  end.

(** A sequence of guarded calls, each made in a world of its own (so
    that any time may pass between two calls); the breaker after the
    last one. *)
Fixpoint calls (self : CircuitBreaker) (func_name : string)
    (cs : list ((W -> outcome A * W) * W)) : CircuitBreaker :=
  match cs with
  | [] => self
  | (func, w) :: cs' => calls (wrapper self func_name func w).1.2 func_name cs'
  end.


End Wrapper.

(** Wrapped operations for concrete runs, as in
    tests/test_circuit_breaker.py; the world is the wall clock. *)
Definition failing_operation : Z -> outcome string * Z :=
  fun w => (Raise (Exception "Operation failed"), w).
Definition successful_operation : Z -> outcome string * Z :=
  fun w => (Return "success", w).

End Breaker.

(* ================================================================== *)
(** ** llm-security-gateway/src/utils/rate_limiter.py *)
(* ================================================================== *)

Module Limiter.

(** The two commands of [redis.asyncio.Redis] the limiter issues, on a
    store of type [R]: each returns its reply or raises. *)
Class RedisClient (R : Type) := {
  incr : string -> Z -> R -> outcome Z * R;
  expire : string -> Z -> R -> outcome bool * R;
}.

(** self.default_limits *)
Definition default_limits : gmap string Z :=
  {[ "requests_per_minute" := 100;
     "requests_per_hour" := 1000;
     "tokens_per_day" := 100000 ]}.

Section Limiter.
Context {R : Type} `{RedisClient R}.

(** RateLimiter._increment_counter *)
Definition _increment_counter (key : string) (window_seconds : Z)
    (increment : Z) (r : R) : Z * R :=
  match incr key increment r with
  | (Return current, r) =>
    if current =? increment then
      match expire key window_seconds r with
      | (Return _, r) => (current, r)
      | (Raise _, r) => (0, r)
      end
    else (current, r)
  | (Raise _, r) => (0, r)
  end.

Definition user_key (user_id : string) : string :=
  "rate_limit:user:" ++ user_id ++ ":minute".
Definition tenant_key (tenant : string) : string :=
  "rate_limit:tenant:" ++ tenant ++ ":hour".
Definition token_key (user_id : string) : string :=
  "rate_limit:user:" ++ user_id ++ ":tokens:day".

Definition violation (retry_after limit current : Z) : gmap string Z :=
  {[ "retry_after" := retry_after; "limit" := limit; "current" := current ]}.

(** RateLimiter.check_limit ([current_time] is read there and not used). *)
Definition check_limit (user_id tenant : string) (tokens : Z) (r : R)
    : (bool * gmap string Z) * R :=
  let '(user_count, r) := _increment_counter (user_key user_id) 60 1 r in
  if default_limits !!! "requests_per_minute" <? user_count then
    ((false, violation 60 (default_limits !!! "requests_per_minute") user_count), r)
  else
    let '(tenant_count, r) := _increment_counter (tenant_key tenant) 3600 1 r in
    let tenant_limit := default_limits !!! "requests_per_hour" * 10 in
    if tenant_limit <? tenant_count then
      ((false, violation 3600 tenant_limit tenant_count), r)
    else
      let '(token_count, r) :=
        if 0 <? tokens
        then _increment_counter (token_key user_id) 86400 tokens r
        else (0, r) in
      if (0 <? tokens) && (default_limits !!! "tokens_per_day" <? token_count) then
        ((false, violation 86400 (default_limits !!! "tokens_per_day") token_count), r)
      else
        ((true, {[ "user_requests" := user_count;
                   "tenant_requests" := tenant_count;
                   "tokens_used" := if 0 <? tokens then token_count else 0 ]}), r).
End Limiter.

(** *** The counter store

    A Redis server as the limiter sees it: a clock, integer counters
    with an optional expiry time, and whether the server can be reached. *)
Record Redis := {
  up : bool;
  now : Z;
  db : gmap string (Z * option Z);
}.

Definition with_db (d : gmap string (Z * option Z)) (r : Redis) : Redis :=
  {| up := up r; now := now r; db := d |}.

(** Time passing on the server. *)
Definition tick (dt : Z) (r : Redis) : Redis :=
  {| up := up r; now := now r + dt; db := db r |}.

(** The entry of a key that has not expired. *)
Definition live (r : Redis) (key : string) : option (Z * option Z) :=
  match db r !! key with
  | Some (v, Some e) => if e <=? now r then None else Some (v, Some e)
  | Some (v, None) => Some (v, None)
  | None => None
  end.

(** INCRBY key n *)
Definition redis_incr (key : string) (n : Z) (r : Redis) : outcome Z * Redis :=
  if up r then
    match live r key with
    | Some (v, e) => (Return (v + n), with_db (<[key := (v + n, e)]> (db r)) r)
    | None => (Return n, with_db (<[key := (n, None)]> (db r)) r)
    end
  else (Raise (Exception "ConnectionError"), r).

(** EXPIRE key seconds *)
Definition redis_expire (key : string) (seconds : Z) (r : Redis)
    : outcome bool * Redis :=
  if up r then
    match live r key with
    | Some (v, _) =>
      (Return true, with_db (<[key := (v, Some (now r + seconds))]> (db r)) r)
    | None => (Return false, r)
    end
  else (Raise (Exception "ConnectionError"), r).

#[export] Instance redis_client : RedisClient Redis :=
  {| incr := redis_incr; expire := redis_expire |}.

(** Unit increments of one counter, [dt] seconds after the previous one
    each; the counts returned. *)
Fixpoint increments (key : string) (window_seconds : Z) (dts : list Z)
    (r : Redis) : list Z :=
  match dts with
  | [] => []
  | dt :: dts' =>
    let '(count, r) := _increment_counter key window_seconds 1 (tick dt r) in
    count :: increments key window_seconds dts' r
  end.

Definition sumZ (l : list Z) : Z := foldr Z.add 0 l.

(** Requests of one user, [dt] seconds after the previous one each; the
    decisions returned. *)
Fixpoint requests (user_id tenant : string) (dts : list Z) (r : Redis)
    : list (bool * gmap string Z) :=
  match dts with
  | [] => []
  | dt :: dts' =>
    let '(decision, r) := check_limit user_id tenant 0 (tick dt r) in
    decision :: requests user_id tenant dts' r
  end.

(** What [check_limit] answers, without tokens, to the request that
    brings the user's counter to [c] and, when it is admitted, the
    tenant's counter to [t <= 10000]. *)
Definition decision_at (c t : Z) : bool * gmap string Z :=
  if c <=? 100
  then (true, {[ "user_requests" := c; "tenant_requests" := t; "tokens_used" := 0 ]})
  else (false, violation 60 100 c).

End Limiter.

(* ================================================================== *)
(** ** llm-security-gateway/src/rbac/policy_engine.py *)
(* ================================================================== *)

Module Policy.

(** The JSON values OPA's decision document may hold under "result". *)
Inductive pyval :=
| PyNone
| PyBool (b : bool)
| PyInt (n : Z)
| PyStr (s : string).

(** Python truthiness, as [if not is_authorized] reads the decision. *)
Definition truthy (v : pyval) : bool :=
  match v with
  | PyNone => false
  | PyBool b => b
  | PyInt n => negb (n =? 0)
  | PyStr s => negb (String.eqb s "")
  end.

(** The authenticated user dict. *)
Record User := {
  user_id : string;
  role : string;
  tier : string;
  tenant : string;
}.

(** The document posted to OPA. *)
Record OpaInput := {
  input_user : User;
  input_action : string;
  input_resource : gmap string string;
}.

(** httpx.Response, as far as [evaluate] reads it; [json] raises when
    the body is not JSON. *)
Record Response := {
  status_code : Z;
  text : string;
  json : outcome (gmap string pyval);
}.

(** class PolicyEngine. [client_post url json] is
    [self.client.post(url, json=..., timeout=5.0)]: it raises on a
    transport error or a timeout. *)
Record PolicyEngine := {
  opa_url : string;
  policy_path : string;
  client_post : string -> OpaInput -> outcome Response;
}.

(** PolicyEngine.__init__ *)
Definition init (post : string -> OpaInput -> outcome Response) (opa_url : string)
    : PolicyEngine :=
  {| opa_url := opa_url; policy_path := "/v1/data/llm/authz/allow";
     client_post := post |}.

(** PolicyEngine.evaluate *)
Definition evaluate (self : PolicyEngine) (user : User) (action : string)
    (resource : gmap string string) : pyval :=
  let opa_input :=
    {| input_user := user; input_action := action; input_resource := resource |} in
  match client_post self (opa_url self ++ policy_path self) opa_input with
  | Return response =>
    if status_code response =? 200 then
      match json response with
      | Return result => default (PyBool false) (result !! "result")
      | Raise _ => PyBool false
      end
    else PyBool false
  | Raise _ => PyBool false
  end.

End Policy.

(* ================================================================== *)
(** ** llm-security-gateway/src/gateway/main.py, routing/model_router.py
       and utils/audit_logger.py *)
(* ================================================================== *)

Module Gateway.
Import Policy.

(** class ChatMessage *)
Record ChatMessage := { msg_role : string; msg_content : string }.

(** class ChatRequest *)
Record ChatRequest := {
  req_model : string;
  messages : list ChatMessage;
  temperature : Q;
  max_tokens : Z;
  req_user_id : string;
}.

(** class ModelResponse *)
Record ModelResponse := {
  content : string;
  tokens_used : Z;
  cost : Q;
  latency_ms : Z;
  resp_model : string;
}.

(** class ChatResponse, with the keys of its metadata dict. *)
Record ChatResponse := {
  chat_model : string;
  response : string;
  meta_tokens_used : Z;
  meta_cost : Q;
  meta_pii_detected : bool;
  meta_pii_entities : list string;
  meta_latency_ms : Z;
}.

(** The audit_entry dict of [AuditLogger.log] (its wall-clock timestamp
    left out). *)
Record AuditEntry := {
  audit_request_id : string;
  audit_user_id : string;
  audit_tenant : string;
  audit_model : string;
  audit_tokens_used : Z;
  audit_cost_usd : Q;
  audit_pii_detected : bool;
  audit_pii_entities : list string;
  audit_latency_ms : option Z;
  audit_error : option string;
  audit_status : string;
}.

(** What the pipeline sends to the outside: an audit record, or a
    request handed to the model router with its messages. *)
Inductive event :=
| Audit (entry : AuditEntry)
| Dispatch (model : string) (msgs : list (string * string)).

(** class ModelRouter: the three provider adapters, each returning a
    completion or raising, and the latency [route] measures around them. *)
Record ModelRouter := {
  _call_claude : string -> list (string * string) -> Q -> Z -> outcome ModelResponse;
  _call_openai : string -> list (string * string) -> Q -> Z -> outcome ModelResponse;
  _call_local : list (string * string) -> Q -> Z -> outcome ModelResponse;
  measured_ms : string -> Z;
}.

(** str.startswith *)
Fixpoint startswith (prefix s : string) : bool :=
  match prefix, s with
  | EmptyString, _ => true
  | String a p', String b s' => Ascii.eqb a b && startswith p' s'
  | String _ _, EmptyString => false
  end.

(** The [try] body of ModelRouter.route. *)
Definition route_once (self : ModelRouter) (model : string)
    (msgs : list (string * string)) (temperature : Q) (max_tokens : Z)
    : outcome ModelResponse :=
  let called :=
    if startswith "claude" model then _call_claude self model msgs temperature max_tokens
    else if startswith "gpt" model then _call_openai self model msgs temperature max_tokens
    else if String.eqb model "local" then _call_local self msgs temperature max_tokens
    else Raise (Exception ("Unknown model: " ++ model)) in
  match called with
  | Return r =>
    Return {| content := content r; tokens_used := tokens_used r; cost := cost r;
              latency_ms := measured_ms self model; resp_model := resp_model r |}
  | Raise e => Raise e
  end.

(** ModelRouter.route: one fallback to gpt-3.5-turbo. *)
Definition route (self : ModelRouter) (model : string)
    (msgs : list (string * string)) (temperature : Q) (max_tokens : Z)
    : outcome ModelResponse :=
  match route_once self model msgs temperature max_tokens with
  | Return r => Return r
  | Raise e =>
    if negb (String.eqb model "gpt-3.5-turbo")
    then route_once self "gpt-3.5-turbo" msgs temperature max_tokens
    else Raise e
  end.

(** The global component instances of main.py; [hash_request] is
    [hash(str(request))] rendered as text. *)
Record Components := {
  dlp_engine : DLP.DLPEngine;
  policy_engine : PolicyEngine;
  model_router : ModelRouter;
  hash_request : ChatRequest -> string;
}.

Section Pipeline.
Context {R : Type} `{Limiter.RedisClient R}.

(** The mutable surroundings of a request: the counter store of the
    rate limiter and everything emitted so far, latest last. *)
Record World := { redis : R; trace : list event }.

Definition emit (ev : event) (w : World) : World :=
  {| redis := redis w; trace := trace w ++ [ev] |}.

(** AuditLogger.log *)
Definition log (request_id user_id tenant model : string) (tokens_used : Z)
    (cost : Q) (pii_detected : bool) (pii_entities : list string)
    (latency_ms : option Z) (error : option string) (w : World) : World :=
  let audit_entry :=
    {| audit_request_id := request_id; audit_user_id := user_id;
       audit_tenant := tenant; audit_model := model;
       audit_tokens_used := tokens_used; audit_cost_usd := cost;
       audit_pii_detected := pii_detected; audit_pii_entities := pii_entities;
       audit_latency_ms := latency_ms; audit_error := error;
       audit_status := match error with Some _ => "error" | None => "success" end |} in
  emit (Audit audit_entry) w.

(** " ".join *)
Fixpoint join (sep : string) (parts : list string) : string :=
  match parts with
  | [] => ""
  | [p] => p
  | p :: ps => p ++ sep ++ join sep ps
  end.

(** str() of a list of plain strings. *)
Definition repr_list (l : list string) : string :=
  "[" ++ join ", " ((fun s => "'" ++ s ++ "'") <$> l) ++ "]".

(** The [except] clauses around the pipeline: an HTTPException passes,
    anything else becomes a 500. *)
Definition handle (e : exn) : exn :=
  match e with
  | HTTPException _ _ => e
  | _ => HTTPException 500 "Internal server error"
  end.

(** chat_completion *)
Definition chat_completion (c : Components) (request : ChatRequest)
    (user : User) (w : World) : outcome ChatResponse * World :=
  let request_id := "req_" ++ user_id user ++ "_" ++ hash_request c request in
  (* Step 1: Rate Limiting *)
  let '((is_allowed, limit_info), r) :=
    Limiter.check_limit (user_id user) (tenant user) 0 (redis w) in
  let w := {| redis := r; trace := trace w |} in
  if negb is_allowed then
    (Raise (HTTPException 429
              ("Rate limit exceeded. Try again in "
               ++ pretty (limit_info !!! "retry_after") ++ "s")), w)
  else
  (* Step 2: RBAC Authorization *)
  let is_authorized :=
    evaluate (policy_engine c) user "chat" {[ "model" := req_model request ]} in
  if negb (truthy is_authorized) then
    (Raise (HTTPException 403 ("Access denied to model: " ++ req_model request)), w)
  else
  (* Step 3: DLP & PII Detection (Request) *)
  let request_content := join " " (msg_content <$> messages request) in
  let dlp_result := DLP.scan (dlp_engine c) request_content "redact" "en" in
  if DLP.blocked dlp_result then
    (Raise (HTTPException 400
              ("Request contains sensitive data: "
               ++ repr_list (DLP.violations dlp_result))), w)
  else
  let request_content :=
    if DLP.pii_detected dlp_result then DLP.redacted_text dlp_result
    else request_content in
  (* Step 4: Model Routing *)
  let msgs := (fun msg => (msg_role msg, msg_content msg)) <$> messages request in
  let w := emit (Dispatch (req_model request) msgs) w in
  match route (model_router c) (req_model request) msgs
              (temperature request) (max_tokens request) with
  | Raise e => (Raise (handle e), w)
  | Return model_response =>
    (* Step 5: DLP & PII Detection (Response) *)
    let response_dlp :=
      DLP.scan (dlp_engine c) (content model_response) "redact" "en" in
    let final_response :=
      if DLP.pii_detected response_dlp then DLP.redacted_text response_dlp
      else content model_response in
    let pii_detected := DLP.pii_detected dlp_result || DLP.pii_detected response_dlp in
    let pii_entities :=
      remove_dups (DLP.pii_entities dlp_result ++ DLP.pii_entities response_dlp)%list in
    (* Step 6: Audit Logging *)
    let w := log request_id (user_id user) (tenant user) (req_model request)
                 (tokens_used model_response) (cost model_response)
                 pii_detected pii_entities None None w in
    (Return {| chat_model := req_model request; response := final_response;
               meta_tokens_used := tokens_used model_response;
               meta_cost := cost model_response;
               meta_pii_detected := pii_detected;
               meta_pii_entities := pii_entities;
               meta_latency_ms := latency_ms model_response |}, w)
  end.

(** The audit records in a trace. *)
Definition audits (t : list event) : list AuditEntry :=
  omap (fun ev => match ev with Audit a => Some a | _ => None end) t.

(** The requests handed to the model router in a trace. *)
Definition dispatches (t : list event) : list (string * list (string * string)) :=
  omap (fun ev => match ev with Dispatch m ms => Some (m, ms) | _ => None end) t.
End Pipeline.

(** *** Components and requests for concrete runs *)

Definition completion (model : string) : ModelResponse :=
  {| content := "Hello"; tokens_used := 12; cost := 0%Q; latency_ms := 0;
     resp_model := model |}.

Definition working_router : ModelRouter :=
  {| _call_claude := fun model _ _ _ => Return (completion model);
     _call_openai := fun model _ _ _ => Return (completion model);
     _call_local := fun _ _ _ => Return (completion "local");
     measured_ms := fun _ => 5 |}.

Definition broken_router : ModelRouter :=
  {| _call_claude := fun _ _ _ _ => Raise (Exception "APIConnectionError");
     _call_openai := fun _ _ _ _ => Raise (Exception "APIConnectionError");
     _call_local := fun _ _ _ => Raise (Exception "ConnectError");
     measured_ms := fun _ => 5 |}.

(** An OPA that answers 200 with the given decision. *)
Definition opa (decision : bool) : PolicyEngine :=
  Policy.init
    (fun _ _ => Return {| status_code := 200; text := "";
                          json := Return {[ "result" := PyBool decision ]} |})
    "http://localhost:8181".

Definition components (engine : DLP.DLPEngine) (decision : bool)
    (router : ModelRouter) : Components :=
  {| dlp_engine := engine; policy_engine := opa decision;
     model_router := router; hash_request := fun _ => "0" |}.

(** The user [get_current_user] returns. *)
Definition current_user : User :=
  {| user_id := "user_123"; role := "user"; tier := "premium";
     tenant := "acme_corp" |}.

Definition chat (text : string) : ChatRequest :=
  {| req_model := "gpt-4";
     messages := [{| msg_role := "user"; msg_content := text |}];
     temperature := (7 # 10)%Q; max_tokens := 1000; req_user_id := "anonymous" |}.

(** An empty counter store, and one on which user_123 has already made
    100 requests in the current minute. *)
Definition fresh_store : Limiter.Redis :=
  {| Limiter.up := true; Limiter.now := 0; Limiter.db := ∅ |}.

Definition exhausted_store : Limiter.Redis :=
  {| Limiter.up := true; Limiter.now := 0;
     Limiter.db := {[ "rate_limit:user:user_123:minute" := (100, Some 60) ]} |}.

Definition start (store : Limiter.Redis) : World :=
  {| redis := store; trace := [] |}.

End Gateway.

(* ================================================================== *)
(** ** mcp-aws-server/src/utils/circuit_breaker.py: the decorator *)
(* ================================================================== *)

Module Registry.
Import Breaker.

(** f"{func.__module__}.{func.__name__}" *)
Definition breaker_key (func_module func_name : string) : string :=
  func_module ++ "." ++ func_name.

(** circuit_breaker(failure_threshold, timeout)(func), on the global
    dict [_circuit_breakers]: the dict afterwards. The function returned
    is [breaker.call(func)] for the breaker then found under the key. *)
Definition circuit_breaker (failure_threshold timeout : Z)
    (func_module func_name : string)
    (_circuit_breakers : gmap string CircuitBreaker)
    : gmap string CircuitBreaker :=
  let breaker_key := breaker_key func_module func_name in
  match _circuit_breakers !! breaker_key with
  | Some _ => _circuit_breakers
  | None =>
    <[breaker_key := Breaker.init failure_threshold timeout]> _circuit_breakers
  end.

Section Decorated.
Context {W A : Type} (clock : W -> Z).

(** A call of the function the decorator returned: [wrapper] runs on the
    breaker object stored under the function's key, which every function
    decorated under that key shares. [None] when nothing was ever
    decorated under the key. *)
Definition decorated (func_module func_name : string)
    (func : W -> outcome A * W)
    (_circuit_breakers : gmap string CircuitBreaker) (w : W)
    : option (outcome A * gmap string CircuitBreaker * W) :=
  let breaker_key := breaker_key func_module func_name in
  match _circuit_breakers !! breaker_key with
  | Some breaker =>
    let '(result, breaker, w) := wrapper clock breaker func_name func w in
    Some (result, <[breaker_key := breaker]> _circuit_breakers, w)
  | None => None
  end.
End Decorated.

End Registry.

(* ================================================================== *)
(** ** mcp-aws-server/src/utils/audit.py *)
(* ================================================================== *)

Module Audit.

#[local] Unset Elimination Schemes.

(** The values of a parameter dict: scalars, lists and nested dicts
    (a dict as its items in insertion order). *)
Inductive pyobj :=
| PNone
| PBool (b : bool)
| PInt (n : Z)
| PStr (s : string)
| PList (l : list pyobj)
| PDict (d : list (string * pyobj)).

#[local] Set Elimination Schemes.

(** str.lower *)
Fixpoint str_lower (s : string) : string :=
  match s with
  | EmptyString => EmptyString
  | String a s' => String (Re.lower a) (str_lower s')
  end.

(** [sub in s] on strings. *)
Fixpoint contains (sub s : string) : bool :=
  Gateway.startswith sub s ||
  match s with
  | EmptyString => false
  | String _ s' => contains sub s'
  end.

(** sensitive_keys *)
Definition sensitive_keys : list string :=
  ["password"; "secret"; "token"; "api_key"; "access_key"; "secret_key"].

(** any(sensitive in key.lower() for sensitive in sensitive_keys) *)
Definition is_sensitive (key : string) : bool :=
  existsb (fun sensitive => contains sensitive (str_lower key)) sensitive_keys.

Definition REDACTED : pyobj := PStr "***REDACTED***".

(** The loop body of [_sanitize_parameters] on one item, given the
    function for nested dicts. *)
Definition sanitize_item (nested : pyobj -> pyobj) (item : string * pyobj)
    : string * pyobj :=
  let '(key, value) := item in
  if is_sensitive key then (key, REDACTED)
  else match value with
       | PDict _ => (key, nested value)
       | _ => (key, value)
       end.

(** [_sanitize_parameters] as a function on the dict object. *)
Fixpoint sanitize (value : pyobj) : pyobj :=
  match value with
  | PDict d => PDict (List.map (sanitize_item sanitize) d)
  | _ => value
  end.

(** AuditLogger._sanitize_parameters *)
Definition _sanitize_parameters (parameters : list (string * pyobj))
    : list (string * pyobj) :=
  List.map (sanitize_item sanitize) parameters.

(** The audit_entry dict of [log_operation] (its wall-clock timestamp
    left out). *)
Record AuditEntry := {
  operation : string;
  parameters : list (string * pyobj);
  result_status : string;
  error : option string;
  execution_time_ms : option Z;
  sensitive : bool;
}.

(** AuditLogger.log_operation: the entry handed to the logger (the
    CloudWatch and database sinks do nothing yet). The audit trail is the
    list of entries, latest last. *)
Definition log_operation (operation : string) (parameters : list (string * pyobj))
    (error : option string) (execution_time_ms : option Z) (sensitive : bool)
    (trail : list AuditEntry) : list AuditEntry :=
  let audit_entry :=
    {| operation := operation;
       parameters := _sanitize_parameters parameters;
       result_status := match error with None => "success" | Some _ => "error" end;
       error := error;
       execution_time_ms := execution_time_ms;
       sensitive := sensitive |} in
  trail ++ [audit_entry].

(** str(e) for the exceptions of this development. *)
Definition str_exn (e : exn) : string :=
  match e with
  | CircuitBreakerError func_name retry_after =>
    "Circuit breaker open for " ++ func_name ++ ". Service unavailable. Retry after "
    ++ pretty retry_after ++ "s."
  | HTTPException _ detail => detail
  | Exception msg => msg
  end.

Section Decorator.
(** The world of the wrapped coroutine; its clock counts milliseconds
    here. *)
Context {W A : Type} (clock_ms : W -> Z).

(** The coroutine [wrapper] returned by audit_log(operation,
    sensitive)(func), called with keyword arguments [kwargs]: the
    try / except / finally around [func]. *)
Definition wrapper (operation : string) (sensitive : bool)
    (kwargs : list (string * pyobj)) (func : W -> outcome A * W)
    (st : W * list AuditEntry) : outcome A * (W * list AuditEntry) :=
  let '(w, trail) := st in
  let start_time := clock_ms w in
  let '(result, w') := func w in
  let error_msg :=
    match result with
    | Return _ => None
    | Raise e => Some (str_exn e)
    end in
  let execution_time_ms := clock_ms w' - start_time in
  (result,
   (w', log_operation operation kwargs error_msg (Some execution_time_ms)
                      sensitive trail)).
End Decorator.

End Audit.

(* ================================================================== *)
(** ** llm-security-gateway/src/utils/rate_limiter.py: usage and reset *)
(* ================================================================== *)

Module Usage.
Import Limiter.

(** The further commands of [redis.asyncio.Redis] behind [get_usage] and
    [reset_limits]: GET (the counter as an integer, if the key is there),
    KEYS with a glob pattern, and DEL. *)
Class RedisKeys (R : Type) := {
  get : string -> R -> outcome (option Z) * R;
  keys : string -> R -> outcome (list string) * R;
  delete : list string -> R -> outcome Z * R;
}.

(** The key [get_usage] reads for the user's requests per hour. *)
Definition hour_key (user_id : string) : string :=
  "rate_limit:user:" ++ user_id ++ ":hour".

Section Usage.
Context {R : Type} `{RedisKeys R}.

(** RateLimiter.get_usage *)
Definition get_usage (user_id : string) (r : R) : gmap string Z * R :=
  match get (user_key user_id) r with
  | (Raise _, r) => (∅, r)
  | (Return user_minute, r) =>
    match get (hour_key user_id) r with
    | (Raise _, r) => (∅, r)
    | (Return user_hour, r) =>
      match get (token_key user_id) r with
      | (Raise _, r) => (∅, r)
      | (Return tokens_day, r) =>
        ({[ "requests_per_minute" := default 0 user_minute;
            "requests_per_hour" := default 0 user_hour;
            "tokens_per_day" := default 0 tokens_day ]}, r)
      end
    end
  end.

(** RateLimiter.reset_limits *)
Definition reset_limits (user_id : string) (r : R) : R :=
  match keys ("rate_limit:user:" ++ user_id ++ ":*") r with
  | (Raise _, r) => r
  | (Return [], r) => r
  | (Return ks, r) => (delete ks r).2
  end.
End Usage.

(** *** The commands on the counter store. [glob pattern key] is the
    pattern matching of KEYS, which belongs to the server. *)

Definition redis_get (key : string) (r : Redis) : outcome (option Z) * Redis :=
  if up r then (Return (fst <$> live r key), r)
  else (Raise (Exception "ConnectionError"), r).

Definition redis_keys (glob : string -> string -> bool) (pattern : string)
    (r : Redis) : outcome (list string) * Redis :=
  if up r then
    (Return (List.filter (fun key => glob pattern key && bool_decide (is_Some (live r key)))
                         (map_to_list (db r)).*1), r)
  else (Raise (Exception "ConnectionError"), r).

Definition redis_delete (ks : list string) (r : Redis) : outcome Z * Redis :=
  if up r then
    (Return (Z.of_nat (List.length
                         (List.filter (fun key => bool_decide (is_Some (live r key))) ks))),
     with_db (foldr (fun key d => base.delete key d) (db r) ks) r)
  else (Raise (Exception "ConnectionError"), r).

Definition redis_keys_client (glob : string -> string -> bool) : RedisKeys Redis :=
  {| get := redis_get; keys := redis_keys glob; delete := redis_delete |}.

(** The pattern matching of KEYS on the patterns [reset_limits] builds
    from a user id without glob characters: a literal prefix and a final
    star. *)
Definition prefix_glob (pattern key : string) : bool :=
  match String.length pattern with
  | O => String.eqb key ""
  | S n => Gateway.startswith (substring 0 n pattern) key
  end.

(** What happens to the store: time passes, a request is checked, a
    user's limits are reset. *)
Inductive op :=
| Tick (dt : Z)
| Check (user_id tenant : string) (tokens : Z)
| Reset (user_id : string).

Definition step (glob : string -> string -> bool) (o : op) (r : Redis) : Redis :=
  match o with
  | Tick dt => tick dt r
  | Check user_id tenant tokens => (check_limit user_id tenant tokens r).2
  | Reset user_id => reset_limits (H := redis_keys_client glob) user_id r
  end.

Definition run (glob : string -> string -> bool) (ops : list op) (r : Redis) : Redis :=
  foldl (fun r o => step glob o r) r ops.

(** Requests of one user, [dt] seconds after the previous one each: the
    decisions and the store left behind. *)
Fixpoint serve (user_id tenant : string) (dts : list Z) (r : Redis)
    : list (bool * gmap string Z) * Redis :=
  match dts with
  | [] => ([], r)
  | dt :: dts' =>
    let '(decision, r) := check_limit user_id tenant 0 (tick dt r) in
    let '(decisions, r) := serve user_id tenant dts' r in
    (decision :: decisions, r)
  end.

End Usage.

(* ================================================================== *)
(** ** mcp-aws-server/src/mcp_server/server.py and the tools' execute *)
(* ================================================================== *)

Module Server.

(** tool_name.split(".", 1) when "." is in the name. *)
Fixpoint split_once (s : string) : option (string * string) :=
  match s with
  | EmptyString => None
  | String a s' =>
    if Ascii.eqb a "." then Some (EmptyString, s')
    else match split_once s' with
         | Some (category, operation) => Some (String a category, operation)
         | None => None
         end
  end.

Section Tools.
Context {W A : Type}.

(** A tool class (EC2Tools, ECSTools, RDSTools, CloudWatchTools): the
    name its error message uses and the operation_map of [execute]. *)
Record Tool := {
  label : string;
  operation_map : gmap string (list (string * Audit.pyobj) -> W -> outcome A * W);
}.

(** The [execute] method of a tool class. *)
Definition execute (self : Tool) (operation : string)
    (parameters : list (string * Audit.pyobj)) (w : W) : outcome A * W :=
  match operation_map self !! operation with
  | None => (Raise (Exception ("Unknown " ++ label self ++ " operation: " ++ operation)), w)
  | Some handler => handler parameters w
  end.

(** MCPServer.call_tool *)
Definition call_tool (tools : gmap string Tool) (tool_name : string)
    (parameters : option (list (string * Audit.pyobj))) (w : W) : outcome A * W :=
  match split_once tool_name with
  | None => (Raise (Exception ("Invalid tool name format: " ++ tool_name)), w)
  | Some (category, operation) =>
    match tools !! category with
    | None => (Raise (Exception ("Unknown tool category: " ++ category)), w)
    | Some tool_instance => execute tool_instance operation (default [] parameters) w
    end
  end.
End Tools.

End Server.

(* ================================================================== *)
(** ** mcp-aws-server/src/mcp_server/tools: the decorator stack *)
(* ================================================================== *)

Module Tools.
Import Breaker.

Section Stack.
Context {W A : Type} (clock clock_ms : W -> Z).



End Stack.

End Tools.

(* ================================================================== *)
(** ** Predicates on parameter dicts, for stating what sanitizing does *)
(* ================================================================== *)

Module Sanitized.
Import Audit.

(** Every item with a sensitive key, in the dict and in the dicts nested
    in it as values, holds the redaction marker. *)
Fixpoint redacted_everywhere (value : pyobj) : Prop :=
  match value with
  | PDict d =>
    fold_right
      (fun item rest =>
         (if is_sensitive item.1 then item.2 = REDACTED
          else redacted_everywhere item.2) /\ rest)
      True d
  | _ => True
  end.

(** No key is sensitive, in the dict or in the dicts nested in it. *)
Fixpoint no_sensitive_key (value : pyobj) : Prop :=
  match value with
  | PDict d =>
    fold_right
      (fun item rest =>
         is_sensitive item.1 = false /\ no_sensitive_key item.2 /\ rest)
      True d
  | _ => True
  end.

End Sanitized.

(* ================================================================== *)
(** * Properties of the DLP scanner *)
(* ================================================================== *)

Section DLPFacts.
Import Re DLP.



Lemma blocking_match_spec (self : DLPEngine) (text : string) :
  existsb (fun pattern => bool_decide (pattern ∈ block_patterns self))
          (_scan_patterns self text)
  = existsb (fun p => search p.2 text && bool_decide (p.1 ∈ block_patterns self))
            (patterns self).
Proof.
  unfold _scan_patterns. induction (patterns self) as [| [name r] ps IH];
    [reflexivity |].
  rewrite filter_cons. cbn [existsb fst snd].
  destruct (search r text); cbn [Is_true].
  - rewrite decide_True by exact I. cbn [fmap list_fmap existsb fst andb].
    f_equal. exact IH.
  - rewrite decide_False by (intros []). cbn [andb orb]. exact IH.
Qed.

(** On the engine as [__init__] builds it, [blocked] is a function of the
    mode and of the four credential patterns alone. *)
Lemma blocked_init an anon (text mode language : string) :
  blocked (scan (init an anon) text mode language) =
  (search api_key_re text || search aws_key_re text
   || search private_key_re text || search password_re text)
  && String.eqb mode "block".
Proof.
  unfold scan; cbn [blocked]. f_equal.
  rewrite blocking_match_spec.
  unfold init, default_patterns; cbn [patterns block_patterns existsb fst snd].
  repeat match goal with
         | |- context [bool_decide (?name ∈ default_block_patterns)] =>
           let b := eval vm_compute in (bool_decide (name ∈ default_block_patterns)) in
           replace (bool_decide (name ∈ default_block_patterns)) with b
             by (vm_compute; reflexivity)
         end.
  rewrite !andb_false_r, !andb_true_r, !orb_false_r. cbn [orb].
  destruct (search api_key_re text), (search aws_key_re text),
    (search private_key_re text), (search password_re text); reflexivity.
Qed.

(** C8. On the engine as [__init__] builds it, for every text and mode,
    [blocked] is true exactly when the mode is "block" and one of the
    four blocking patterns (api_key, aws_key, private_key, password)
    matches the text. The entity detections of the analyzer play no part
    (the statement holds for every analyzer), and in "redact" and
    "alert" mode [blocked] is false. *)
Theorem blocked_only_in_block_mode_by_credential_pattern
    an anon (text mode language : string) :
  (blocked (scan (init an anon) text mode language) = true <->
   mode = "block" /\
   (search api_key_re text = true \/ search aws_key_re text = true \/
    search private_key_re text = true \/ search password_re text = true))
  /\ block_patterns (init an anon)
     = {["api_key"; "aws_key"; "private_key"; "password"]}
  /\ blocked (scan (init an anon) text "redact" language) = false
  /\ blocked (scan (init an anon) text "alert" language) = false.
Proof.
  rewrite !blocked_init. split; [split |].
  - intros Hb. apply andb_true_iff in Hb as [Hm Hmode].
    split; [by apply String.eqb_eq |].
    repeat (apply orb_true_iff in Hm as [Hm | Hm]); auto.
  - intros [-> Hm]. rewrite String.eqb_refl, andb_true_r.
    destruct Hm as [-> | [-> | [-> | ->]]]; rewrite ?orb_true_r; reflexivity.
  - split; [reflexivity |]. split; apply andb_false_r.
Qed.

(** C10. In every mode other than "redact" the result's [redacted_text]
    is the input text itself, whatever was detected. *)
Theorem redacted_text_is_input_outside_redact_mode
    (self : DLPEngine) (text mode language : string) :
  mode <> "redact" ->
  redacted_text (scan self text mode language) = text.
Proof.
  intros Hmode. unfold scan; cbn [redacted_text].
  destruct (String.eqb_spec mode "redact") as [-> | _]; [done | reflexivity].
Qed.

Lemma redacted_text_is_input_outside_redact_mode_witness :
  "block" <> "redact" /\
  blocked (scan plain_engine "password: hunter2" "block" "en") = true /\
  redacted_text (scan plain_engine "password: hunter2" "block" "en")
  = "password: hunter2".
Proof.
  split; [discriminate |]. split; [vm_compute; reflexivity |].
  apply (redacted_text_is_input_outside_redact_mode
           plain_engine "password: hunter2" "block" "en").
  discriminate.
Defined.




End DLPFacts.

(* ================================================================== *)
(** * Properties of the circuit breaker *)
(* ================================================================== *)

Section BreakerFacts.
Import Breaker.
Context {W A : Type} (clock : W -> Z).





(** In the CLOSED state a successful call leaves the breaker as it is,
    failure count included. *)
Lemma closed_success_changes_nothing (self : CircuitBreaker) name
    (func : W -> outcome A * W) (w w' : W) (v : A) :
  state self = CLOSED ->
  func w = (Return v, w') ->
  wrapper clock self name func w = (Return v, self, w').
Proof.
  intros Hs Hf. unfold wrapper, check, on_success. by rewrite Hs, Hf, Hs.
Qed.

End BreakerFacts.

Section BreakerRuns.
Import Breaker.


(** C4 (the code departs from the claim). With [failure_threshold = 3],
    one failure followed by a success leaves [failure_count] at 1 in the
    CLOSED state, and three failures with successes in between open the
    breaker. *)
Theorem closed_success_keeps_failure_count :
  let breaker := Breaker.init 3 1 in
  let after2 := calls id breaker "operation"
                  [(failing_operation, 0); (successful_operation, 0)] in
  let after5 := calls id breaker "operation"
                  [(failing_operation, 0); (successful_operation, 0);
                   (failing_operation, 0); (successful_operation, 0);
                   (failing_operation, 0)] in
  state after2 = CLOSED /\ failure_count after2 = 1 /\
  state after5 = OPEN /\ failure_count after5 = 3.
Proof. vm_compute. repeat split. Qed.
End BreakerRuns.

(* ================================================================== *)
(** * Properties of the rate limiter *)
(* ================================================================== *)

Section LimiterFacts.
Import Limiter.

Lemma limit_per_minute : default_limits !!! "requests_per_minute" = 100.
Proof. reflexivity. Qed.
Lemma limit_per_hour : default_limits !!! "requests_per_hour" = 1000.
Proof. reflexivity. Qed.
Lemma limit_tokens : default_limits !!! "tokens_per_day" = 100000.
Proof. reflexivity. Qed.

(** The first increment of a key that is not live creates the counter
    and starts its window. *)
Lemma increment_fresh (key : string) (window n : Z) (r : Redis) :
  up r = true -> live r key = None ->
  _increment_counter key window n r
  = (n, with_db (<[key := (n, Some (now r + window))]> (db r)) r).
Proof.
  intros Hup Hlive. unfold _increment_counter; cbn [incr expire redis_client].
  unfold redis_incr. rewrite Hup, Hlive, Z.eqb_refl.
  unfold redis_expire, live, with_db; cbn. rewrite Hup, lookup_insert_eq.
  by rewrite insert_insert_eq.
Qed.

(** An increment of a live, non-zero counter adds to it and leaves its
    expiry alone. *)
Lemma increment_live (key : string) (window n v : Z) (e : option Z) (r : Redis) :
  up r = true -> live r key = Some (v, e) -> v <> 0 ->
  _increment_counter key window n r
  = (v + n, with_db (<[key := (v + n, e)]> (db r)) r).
Proof.
  intros Hup Hlive Hv. unfold _increment_counter; cbn [incr expire redis_client].
  unfold redis_incr. rewrite Hup, Hlive.
  destruct (Z.eqb_spec (v + n) n); [lia | reflexivity].
Qed.

Lemma live_entry (r : Redis) (key : string) (v e : Z) :
  db r !! key = Some (v, Some e) -> now r < e -> live r key = Some (v, Some e).
Proof.
  intros Hdb Hlt. unfold live. rewrite Hdb.
  destruct (Z.leb_spec e (now r)); [lia | reflexivity].
Qed.

(** Within the window of a live counter holding [k >= 1], unit
    increments return [k + 1], [k + 2], ... *)
Lemma increments_live (key : string) (window : Z) (dts : list Z) :
  forall (r : Redis) (k e : Z),
    up r = true -> db r !! key = Some (k, Some e) -> 1 <= k ->
    Forall (fun dt => 0 <= dt) dts -> now r + sumZ dts < e ->
    increments key window dts r = seqZ (k + 1) (Z.of_nat (List.length dts)).
Proof.
  induction dts as [| dt dts IH]; intros r k e Hup Hdb Hk Hpos Hwin; [reflexivity |].
  apply Forall_cons in Hpos as [Hdt Hpos]. cbn [sumZ foldr] in Hwin.
  assert (Hs : 0 <= sumZ dts).
  { clear -Hpos. induction Hpos; cbn; [lia |]. unfold sumZ in *. lia. }
  cbn [increments].
  rewrite (increment_live key window 1 k (Some e) (tick dt r)); [| exact Hup | | lia].
  2: { apply live_entry; cbn; [exact Hdb | unfold sumZ in *; lia]. }
  rewrite (IH _ (k + 1) e); cbn;
    [| exact Hup | apply lookup_insert_eq | lia | exact Hpos | unfold sumZ in *; lia].
  rewrite (seqZ_cons (k + 1)) by lia. f_equal. f_equal; lia.
Qed.

Lemma sumZ_nonneg (dts : list Z) : Forall (fun dt => 0 <= dt) dts -> 0 <= sumZ dts.
Proof. induction 1; cbn; [lia |]. unfold sumZ in *. lia. Qed.

(** From a key that is not live, unit increments within one window
    return 1, 2, 3, ... *)
Lemma increments_fresh (key : string) (window dt : Z) (dts : list Z) (r : Redis) :
  up r = true -> live (tick dt r) key = None ->
  Forall (fun dt => 0 <= dt) dts -> sumZ dts < window ->
  increments key window (dt :: dts) r = seqZ 1 (Z.of_nat (List.length (dt :: dts))).
Proof.
  intros Hup Hlive Hpos Hwin. cbn [increments].
  rewrite increment_fresh by done.
  rewrite (increments_live key window dts _ 1 (now r + dt + window));
    cbn; [| exact Hup | apply lookup_insert_eq | lia | exact Hpos | lia].
  rewrite (seqZ_cons 1) by lia. f_equal. f_equal; lia.
Qed.

Lemma user_tenant_key_ne (user_id tenant : string) :
  user_key user_id <> tenant_key tenant.
Proof. unfold user_key, tenant_key. cbn. discriminate. Qed.

Lemma live_other (r : Redis) (key key' : string) (x : Z * option Z) :
  key <> key' -> live (with_db (<[key := x]> (db r)) r) key' = live r key'.
Proof. intros Hne. unfold live; cbn. by rewrite lookup_insert_ne. Qed.

(** A request whose user counter is live at [k >= 100]: rejected on the
    user scope, and only the user counter is written. *)
Lemma check_limit_user_over (user_id tenant : string) (r : Redis) (k : Z) e :
  up r = true -> live r (user_key user_id) = Some (k, e) -> 100 <= k ->
  check_limit user_id tenant 0 r
  = ((false, violation 60 100 (k + 1)),
     with_db (<[user_key user_id := (k + 1, e)]> (db r)) r).
Proof.
  intros Hup Hu Hk. unfold check_limit.
  rewrite (increment_live _ 60 1 k e r) by (done || lia).
  rewrite limit_per_minute.
  destruct (Z.ltb_spec 100 (k + 1)); [reflexivity | lia].
Qed.

(** A request with both counters live and below their limits: admitted,
    and both counters are written. *)
Lemma check_limit_under (user_id tenant : string) (r : Redis) (k kt : Z) e et :
  up r = true ->
  live r (user_key user_id) = Some (k, e) -> 1 <= k < 100 ->
  live r (tenant_key tenant) = Some (kt, et) -> 1 <= kt < 10000 ->
  check_limit user_id tenant 0 r
  = ((true, {[ "user_requests" := k + 1; "tenant_requests" := kt + 1;
               "tokens_used" := 0 ]}),
     with_db (<[tenant_key tenant := (kt + 1, et)]>
                (<[user_key user_id := (k + 1, e)]> (db r))) r).
Proof.
  intros Hup Hu Hk Ht Hkt. unfold check_limit.
  rewrite (increment_live _ 60 1 k e r) by (done || lia).
  rewrite limit_per_minute, limit_per_hour.
  destruct (Z.ltb_spec 100 (k + 1)); [lia |].
  rewrite (increment_live _ 3600 1 kt et); [| exact Hup | | lia].
  2: { rewrite live_other by apply user_tenant_key_ne. exact Ht. }
  destruct (Z.ltb_spec (1000 * 10) (kt + 1)); [lia |].
  reflexivity.
Qed.

Lemma requests_live (user_id tenant : string) (dts : list Z) :
  forall (r : Redis) (k kt e et : Z),
    up r = true ->
    db r !! user_key user_id = Some (k, Some e) ->
    db r !! tenant_key tenant = Some (kt, Some et) ->
    1 <= k -> 1 <= kt -> kt + Z.of_nat (List.length dts) <= 10000 ->
    Forall (fun dt => 0 <= dt) dts ->
    now r + sumZ dts < e -> now r + sumZ dts < et ->
    forall (i : nat) d,
      requests user_id tenant dts r !! i = Some d ->
      d = decision_at (k + Z.of_nat i + 1) (kt + Z.of_nat i + 1).
Proof.
  induction dts as [| dt dts IH];
    intros r k kt e et Hup Hu Ht Hk Hkt Hcap Hpos He Het i d Hi; [done |].
  apply Forall_cons in Hpos as [Hdt Hpos].
  pose proof (sumZ_nonneg dts Hpos) as Hs.
  cbn [sumZ foldr] in He, Het. fold (sumZ dts) in He, Het.
  cbn [List.length] in Hcap.
  assert (Hlu : live (tick dt r) (user_key user_id) = Some (k, Some e))
    by (apply live_entry; cbn; [exact Hu | lia]).
  assert (Hlt : live (tick dt r) (tenant_key tenant) = Some (kt, Some et))
    by (apply live_entry; cbn; [exact Ht | lia]).
  cbn [requests] in Hi.
  destruct (Z.le_gt_cases 100 k) as [Hover | Hunder].
  - (* the user scope is violated: the tenant counter is not touched *)
    rewrite (check_limit_user_over _ _ _ k (Some e)) in Hi by done.
    destruct i as [| i]; cbn [lookup list_lookup] in Hi.
    + injection Hi as <-. unfold decision_at.
      destruct (Z.leb_spec (k + Z.of_nat 0 + 1) 100); [lia |].
      do 2 f_equal. lia.
    + apply (IH _ (k + 1) kt e et) in Hi; cbn; try lia; try done.
      * subst d. unfold decision_at.
        destruct (Z.leb_spec (k + 1 + Z.of_nat i + 1) 100); [lia |].
        destruct (Z.leb_spec (k + Z.of_nat (S i) + 1) 100); [lia |].
        do 2 f_equal. lia.
      * apply lookup_insert_eq.
      * rewrite lookup_insert_ne by apply user_tenant_key_ne. exact Ht.
  - rewrite (check_limit_under _ _ _ k kt (Some e) (Some et)) in Hi by (done || lia).
    destruct i as [| i]; cbn [lookup list_lookup] in Hi.
    + injection Hi as <-. unfold decision_at.
      destruct (Z.leb_spec (k + Z.of_nat 0 + 1) 100); [| lia].
      replace (k + Z.of_nat 0 + 1) with (k + 1) by lia.
      replace (kt + Z.of_nat 0 + 1) with (kt + 1) by lia. reflexivity.
    + apply (IH _ (k + 1) (kt + 1) e et) in Hi; cbn; try lia; try done.
      * subst d. f_equal; lia.
      * rewrite lookup_insert_ne by (apply not_eq_sym, user_tenant_key_ne).
        apply lookup_insert_eq.
      * apply lookup_insert_eq.
Qed.

(** The first request of a user whose counters are not live. *)
Lemma check_limit_fresh (user_id tenant : string) (r : Redis) :
  up r = true ->
  live r (user_key user_id) = None -> live r (tenant_key tenant) = None ->
  check_limit user_id tenant 0 r
  = ((true, {[ "user_requests" := 1; "tenant_requests" := 1; "tokens_used" := 0 ]}),
     with_db (<[tenant_key tenant := (1, Some (now r + 3600))]>
                (<[user_key user_id := (1, Some (now r + 60))]> (db r))) r).
Proof.
  intros Hup Hu Ht. unfold check_limit.
  rewrite increment_fresh by done. rewrite limit_per_minute, limit_per_hour.
  rewrite increment_fresh; [| exact Hup |].
  2: { rewrite live_other by apply user_tenant_key_ne. exact Ht. }
  reflexivity.
Qed.

Lemma requests_fresh (user_id tenant : string) (dt : Z) (dts : list Z) (r : Redis) :
  up r = true ->
  live (tick dt r) (user_key user_id) = None ->
  live (tick dt r) (tenant_key tenant) = None ->
  Forall (fun dt => 0 <= dt) dts -> sumZ dts < 60 ->
  Z.of_nat (List.length dts) < 10000 ->
  forall (i : nat) d,
    requests user_id tenant (dt :: dts) r !! i = Some d ->
    d = decision_at (Z.of_nat i + 1) (Z.of_nat i + 1).
Proof.
  intros Hup Hu Ht Hpos Hwin Hcap i d Hi.
  cbn [requests] in Hi. rewrite check_limit_fresh in Hi by done.
  destruct i as [| i]; cbn [lookup list_lookup] in Hi.
  - injection Hi as <-. reflexivity.
  - apply (requests_live _ _ _ _ 1 1 (now r + dt + 60) (now r + dt + 3600)) in Hi;
      cbn; try lia; try done.
    + subst d. f_equal; lia.
    + rewrite lookup_insert_ne by (apply not_eq_sym, user_tenant_key_ne).
      apply lookup_insert_eq.
    + apply lookup_insert_eq.
Qed.

Lemma requests_length (user_id tenant : string) (dts : list Z) :
  forall r : Redis, List.length (requests user_id tenant dts r) = List.length dts.
Proof.
  induction dts as [| dt dts IH]; intros r; [reflexivity |].
  cbn [requests]. destruct (check_limit _ _ _ _) as [d r'].
  cbn [List.length]. by rewrite IH.
Qed.

Lemma requests_fresh_decisions (user_id tenant : string) (dt : Z) (dts : list Z)
    (r : Redis) :
  up r = true ->
  live (tick dt r) (user_key user_id) = None ->
  live (tick dt r) (tenant_key tenant) = None ->
  Forall (fun dt => 0 <= dt) dts -> sumZ dts < 60 ->
  Z.of_nat (List.length dts) < 10000 ->
  requests user_id tenant (dt :: dts) r
  = (fun i => decision_at i i) <$> seqZ 1 (Z.of_nat (List.length (dt :: dts))).
Proof.
  intros Hup Hu Ht Hpos Hwin Hcap. apply list_eq. intros i.
  rewrite list_lookup_fmap.
  destruct (requests user_id tenant (dt :: dts) r !! i) as [d |] eqn:Hi.
  - pose proof (lookup_lt_Some _ _ _ Hi) as Hlt. rewrite requests_length in Hlt.
    rewrite lookup_seqZ_lt by lia. cbn [fmap option_fmap option_map].
    apply (requests_fresh _ _ _ _ _ Hup Hu Ht Hpos Hwin Hcap) in Hi. subst d.
    do 2 f_equal; lia.
  - apply lookup_ge_None in Hi. rewrite requests_length in Hi.
    rewrite lookup_seqZ_ge by lia. reflexivity.
Qed.
End LimiterFacts.

Section LimiterClient.
Import Limiter.
Context {R : Type} `{RedisClient R}.

(** [check_limit] read off its three counters: the scopes are tried in
    the order user, tenant, tokens on the stores [r], [r1], [r2], and the
    store returned is the one left by the last counter tried. *)
Lemma check_limit_scopes (user_id tenant : string) (tokens : Z) (r : R) :
  let '(uc, r1) := _increment_counter (user_key user_id) 60 1 r in
  let '(tc, r2) := _increment_counter (tenant_key tenant) 3600 1 r1 in
  let '(kc, r3) := _increment_counter (token_key user_id) 86400 tokens r2 in
  (100 < uc ->
   check_limit user_id tenant tokens r = ((false, violation 60 100 uc), r1)) /\
  (uc <= 100 -> 10000 < tc ->
   check_limit user_id tenant tokens r = ((false, violation 3600 10000 tc), r2)) /\
  (uc <= 100 -> tc <= 10000 -> 0 < tokens -> 100000 < kc ->
   check_limit user_id tenant tokens r = ((false, violation 86400 100000 kc), r3)) /\
  (uc <= 100 -> tc <= 10000 -> 0 < tokens -> kc <= 100000 ->
   check_limit user_id tenant tokens r
   = ((true, {[ "user_requests" := uc; "tenant_requests" := tc;
                "tokens_used" := kc ]}), r3)) /\
  (uc <= 100 -> tc <= 10000 -> tokens <= 0 ->
   check_limit user_id tenant tokens r
   = ((true, {[ "user_requests" := uc; "tenant_requests" := tc;
                "tokens_used" := 0 ]}), r2)).
Proof.
  unfold check_limit. rewrite limit_per_minute, limit_per_hour, limit_tokens.
  destruct (_increment_counter (user_key user_id) 60 1 r) as [uc r1].
  destruct (_increment_counter (tenant_key tenant) 3600 1 r1) as [tc r2].
  destruct (_increment_counter (token_key user_id) 86400 tokens r2) as [kc r3].
  change (1000 * 10) with 10000.
  destruct (Z.ltb_spec 100 uc), (Z.ltb_spec 10000 tc), (Z.ltb_spec 0 tokens),
    (Z.ltb_spec 100000 kc); cbn [andb];
    repeat split; intros; try lia; reflexivity.
Qed.

(** When the store cannot be reached every counter reads 0. *)
Lemma increment_counter_unreachable (key : string) (window n : Z) (r : R) :
  (exists e, incr key n r = (Raise e, r)) ->
  _increment_counter key window n r = (0, r).
Proof. intros [e He]. unfold _increment_counter. by rewrite He. Qed.
End LimiterClient.

Section LimiterClaims.
Import Limiter Policy.

(** C6. (1) For every scope key and limit [L]: from a key that is not
    live, the [i]-th unit increment within one window returns [i], so
    the test [count > L] passes the first [L] increments and rejects the
    [(L+1)]-th. (2) [check_limit] tries the user-per-minute scope, then
    the tenant-per-hour scope, then the user-tokens-per-day scope,
    returns at the first one violated with that scope's retry_after,
    limit and current count, and leaves the later counters untouched.
    (3) For one user on fresh counters, requests 1..100 within a minute
    are admitted and every later one in that minute is rejected with
    retry_after 60, limit 100 and the current count. *)
Theorem rate_limit_windows_and_scope_order :
  (forall (key : string) (window dt : Z) (dts : list Z) (r : Redis),
      up r = true -> live (tick dt r) key = None ->
      Forall (fun dt => 0 <= dt) dts -> sumZ dts < window ->
      forall (L : Z) (i : nat) (count : Z),
        increments key window (dt :: dts) r !! i = Some count ->
        count = Z.of_nat i + 1 /\
        (Z.of_nat i < L -> (L <? count) = false) /\
        (Z.of_nat i = L -> (L <? count) = true))
  /\
  (forall (R : Type) (client : RedisClient R)
          (user_id tenant : string) (tokens : Z) (r : R),
      let '(uc, r1) := _increment_counter (user_key user_id) 60 1 r in
      let '(tc, r2) := _increment_counter (tenant_key tenant) 3600 1 r1 in
      let '(kc, r3) := _increment_counter (token_key user_id) 86400 tokens r2 in
      (100 < uc ->
       check_limit user_id tenant tokens r = ((false, violation 60 100 uc), r1)) /\
      (uc <= 100 -> 10000 < tc ->
       check_limit user_id tenant tokens r = ((false, violation 3600 10000 tc), r2)) /\
      (uc <= 100 -> tc <= 10000 -> 0 < tokens -> 100000 < kc ->
       check_limit user_id tenant tokens r
       = ((false, violation 86400 100000 kc), r3)) /\
      (uc <= 100 -> tc <= 10000 -> 0 < tokens -> kc <= 100000 ->
       check_limit user_id tenant tokens r
       = ((true, {[ "user_requests" := uc; "tenant_requests" := tc;
                    "tokens_used" := kc ]}), r3)) /\
      (uc <= 100 -> tc <= 10000 -> tokens <= 0 ->
       check_limit user_id tenant tokens r
       = ((true, {[ "user_requests" := uc; "tenant_requests" := tc;
                    "tokens_used" := 0 ]}), r2)))
  /\
  (forall (user_id tenant : string) (dt : Z) (dts : list Z) (r : Redis),
      up r = true ->
      live (tick dt r) (user_key user_id) = None ->
      live (tick dt r) (tenant_key tenant) = None ->
      Forall (fun dt => 0 <= dt) dts -> sumZ dts < 60 ->
      Z.of_nat (List.length dts) < 10000 ->
      requests user_id tenant (dt :: dts) r
      = (fun i =>
           if i <=? 100
           then (true, {[ "user_requests" := i; "tenant_requests" := i;
                          "tokens_used" := 0 ]})
           else (false, {[ "retry_after" := 60; "limit" := 100; "current" := i ]}))
        <$> seqZ 1 (Z.of_nat (List.length (dt :: dts)))).
Proof.
  split; [| split].
  - intros key window dt dts r Hup Hlive Hpos Hwin L i count Hi.
    rewrite increments_fresh in Hi by done.
    apply lookup_seqZ in Hi as [-> Hlt].
    split; [lia |]. split; intros HL.
    + destruct (Z.ltb_spec L (1 + Z.of_nat i)); [lia | reflexivity].
    + destruct (Z.ltb_spec L (1 + Z.of_nat i)); [reflexivity | lia].
  - intros R client user_id tenant tokens r.
    apply check_limit_scopes.
  - intros user_id tenant dt dts r Hup Hu Ht Hpos Hwin Hcap.
    by apply requests_fresh_decisions.
Qed.

Lemma rate_limit_windows_and_scope_order_witness :
  requests "u1" "t1" [0; 1; 1] {| up := true; now := 0; db := ∅ |}
  = (fun i =>
       if i <=? 100
       then (true, {[ "user_requests" := i; "tenant_requests" := i;
                      "tokens_used" := 0 ]})
       else (false, {[ "retry_after" := 60; "limit" := 100; "current" := i ]}))
    <$> seqZ 1 (Z.of_nat (List.length [0; 1; 1])).
Proof.
  apply (proj2 (proj2 rate_limit_windows_and_scope_order)).
  - reflexivity.
  - unfold live; cbn [db tick]. by rewrite lookup_empty.
  - unfold live; cbn [db tick]. by rewrite lookup_empty.
  - repeat constructor; lia.
  - cbn; lia.
  - cbn; lia.
Defined.

(** C7. When its own dependency fails, each stage answers with its
    default instead of raising: with a counter store on which every
    INCRBY raises, [check_limit] returns allowed; and when the request to
    OPA raises (transport error or timeout) or comes back with a status
    other than 200, [evaluate] returns False. *)
Theorem stages_fall_back_to_their_default :
  (forall (R : Type) (client : RedisClient R)
          (user_id tenant : string) (tokens : Z) (r : R),
      (forall key n, exists e, incr key n r = (Raise e, r)) ->
      check_limit user_id tenant tokens r
      = ((true, {[ "user_requests" := 0; "tenant_requests" := 0;
                   "tokens_used" := 0 ]}), r))
  /\
  (forall (self : PolicyEngine) (user : User) (action : string)
          (resource : gmap string string),
      let request :=
        client_post self (opa_url self ++ policy_path self)
          {| input_user := user; input_action := action;
             input_resource := resource |} in
      ((exists e, request = Raise e) \/
       (exists response, request = Return response /\ status_code response <> 200)) ->
      evaluate self user action resource = PyBool false).
Proof.
  split.
  - intros R client user_id tenant tokens r Hdown. unfold check_limit.
    rewrite (increment_counter_unreachable (user_key user_id) 60 1 r)
      by apply Hdown.
    rewrite limit_per_minute, limit_per_hour, limit_tokens.
    change (100 <? 0) with false. cbv beta iota.
    rewrite (increment_counter_unreachable (tenant_key tenant) 3600 1 r)
      by apply Hdown.
    change (1000 * 10 <? 0) with false. cbv beta iota.
    destruct (Z.ltb_spec 0 tokens).
    + rewrite (increment_counter_unreachable (token_key user_id) 86400 tokens r)
        by apply Hdown.
      reflexivity.
    + reflexivity.
  - intros self user action resource request Hfail. unfold evaluate.
    fold request. destruct Hfail as [[e ->] | [response [-> Hstatus]]];
      [reflexivity |].
    destruct (Z.eqb_spec (status_code response) 200); [done | reflexivity].
Qed.

Lemma stages_fall_back_to_their_default_witness :
  (check_limit "u1" "t1" 0 {| up := false; now := 0; db := ∅ |}).1.1 = true /\
  evaluate (Policy.init (fun _ _ => Raise (Exception "ReadTimeout"))
                        "http://localhost:8181")
           {| user_id := "u1"; role := "user"; tier := "premium"; tenant := "t1" |}
           "chat" ∅
  = PyBool false.
Proof.
  split.
  - rewrite (proj1 stages_fall_back_to_their_default Redis _ "u1" "t1" 0
               {| up := false; now := 0; db := ∅ |}); [reflexivity |].
    intros key n. eexists. reflexivity.
  - apply (proj2 stages_fall_back_to_their_default). left. eexists. reflexivity.
Defined.
End LimiterClaims.

(* ================================================================== *)
(** * Properties of the admission pipeline *)
(* ================================================================== *)

Section GatewayFacts.
Import Policy Gateway.
Context {R : Type} `{Limiter.RedisClient R}.

(** A scan in "redact" mode never reports [blocked]. *)
Lemma redact_scan_never_blocks (self : DLP.DLPEngine) (text language : string) :
  DLP.blocked (DLP.scan self text "redact" language) = false.
Proof. unfold DLP.scan; cbn. apply andb_false_r. Qed.

(** The pipeline emits one audit record when it returns a response and
    none when it raises. *)
Lemma audit_only_on_success (c : Components) (request : ChatRequest)
    (user : User) (w : World) :
  let '(result, w') := chat_completion c request user w in
  List.length (audits (trace w'))
  = (List.length (audits (trace w))
     + match result with Return _ => 1 | Raise _ => 0 end)%nat.
Proof.
  unfold chat_completion.
  destruct (Limiter.check_limit _ _ _ _) as [[is_allowed limit_info] r].
  destruct is_allowed; cbn [negb]; [| cbn [trace]; lia].
  destruct (truthy _); cbn [negb]; [| cbn [trace]; lia].
  rewrite redact_scan_never_blocks.
  destruct (route _ _ _ _ _) as [model_response | e]; cbn [trace log emit redis].
  - unfold audits. rewrite !omap_app, !length_app. cbn. lia.
  - unfold audits. rewrite !omap_app, !length_app. cbn. lia.
Qed.

(** Whatever the scan found, the messages handed to the router are the
    ones of the request. *)
Lemma dispatch_carries_request_messages (c : Components) (request : ChatRequest)
    (user : User) (w : World) :
  let w' := (chat_completion c request user w).2 in
  dispatches (trace w') = dispatches (trace w) \/
  dispatches (trace w')
  = (dispatches (trace w)
     ++ [(req_model request,
          (fun msg => (msg_role msg, msg_content msg)) <$> messages request)])%list.
Proof.
  unfold chat_completion.
  destruct (Limiter.check_limit _ _ _ _) as [[is_allowed limit_info] r].
  destruct is_allowed; cbn [negb]; [| left; reflexivity].
  destruct (truthy _); cbn [negb]; [| left; reflexivity].
  rewrite redact_scan_never_blocks.
  destruct (route _ _ _ _ _) as [model_response | e];
    cbn [snd trace log emit redis]; right;
    unfold dispatches; rewrite !omap_app; cbn; by rewrite ?app_nil_r.
Qed.
End GatewayFacts.

Section GatewayRuns.
Import Limiter Policy Gateway.

(** C1 (the code departs from the claim). A request rejected by the rate
    limiter (429), by the policy (403) or by a failing dispatch (500)
    leaves no audit record: [audit_logger.log] is reached only after a
    completion was obtained. *)
Theorem rejected_requests_are_not_audited :
  let limited :=
    chat_completion (components DLP.plain_engine true working_router)
                    (chat "hi") current_user (start exhausted_store) in
  let denied :=
    chat_completion (components DLP.plain_engine false working_router)
                    (chat "hi") current_user (start fresh_store) in
  let failed :=
    chat_completion (components DLP.plain_engine true broken_router)
                    (chat "hi") current_user (start fresh_store) in
  limited.1 = Raise (HTTPException 429 "Rate limit exceeded. Try again in 60s") /\
  audits (trace limited.2) = [] /\
  denied.1 = Raise (HTTPException 403 "Access denied to model: gpt-4") /\
  audits (trace denied.2) = [] /\
  failed.1 = Raise (HTTPException 500 "Internal server error") /\
  audits (trace failed.2) = [].
Proof. vm_compute. repeat split. Qed.

(** C2 (the code departs from the claim). The inbound scan runs in
    "redact" mode, in which [blocked] is never set: a payload matching
    the password pattern, which a "block"-mode scan reports as blocked,
    is answered with a completion and has been handed to the router. *)
Theorem credential_payload_is_not_blocked :
  let run :=
    chat_completion (components DLP.plain_engine true working_router)
                    (chat "password: hunter2") current_user (start fresh_store) in
  DLP._scan_patterns DLP.plain_engine "password: hunter2" = ["password"] /\
  DLP.blocked (DLP.scan DLP.plain_engine "password: hunter2" "block" "en") = true /\
  DLP.blocked (DLP.scan DLP.plain_engine "password: hunter2" "redact" "en") = false /\
  response <$> (match run.1 with Return r => Some r | Raise _ => None end)
  = Some "Hello" /\
  dispatches (trace run.2) = [("gpt-4", [("user", "password: hunter2")])].
Proof. vm_compute. repeat split. Qed.

(** C3 (the code departs from the claim). The inbound scan detects an
    e-mail address and computes the redacted payload, yet the router
    receives the messages of the request with the address in them. *)
Theorem detected_pii_is_forwarded_unredacted :
  let result := DLP.scan DLP.email_engine "contact bob@example.com" "redact" "en" in
  let run :=
    chat_completion (components DLP.email_engine true working_router)
                    (chat "contact bob@example.com") current_user
                    (start fresh_store) in
  DLP.blocked result = false /\ DLP.pii_detected result = true /\
  DLP.redacted_text result = "contact <EMAIL_REDACTED>" /\
  dispatches (trace run.2) = [("gpt-4", [("user", "contact bob@example.com")])].
Proof. vm_compute. repeat split. Qed.
End GatewayRuns.

(* ================================================================== *)
(** * Further properties of the circuit breaker *)
(* ================================================================== *)

Section BreakerMore.
Import Breaker.
Context {W A : Type} (clock : W -> Z).



(** X2. The breaker never alters what the wrapped function does: either
    it is OPEN with the timeout not yet elapsed, and the caller gets
    CircuitBreakerError while breaker and world stay as they were, or
    the function is invoked once and the caller gets the function's own
    result or exception and the world the function left. *)
Theorem wrapper_is_transparent (self : CircuitBreaker) (name : string)
    (func : W -> outcome A * W) (w : W) :
  (state self = OPEN /\ clock w - last_failure_time self < timeout self /\
   wrapper clock self name func w
   = (Raise (CircuitBreakerError name (timeout self)), self, w))
  \/
  (~ (state self = OPEN /\ clock w - last_failure_time self < timeout self) /\
   (wrapper clock self name func w).1.1 = (func w).1 /\
   (wrapper clock self name func w).2 = (func w).2).
Proof.
  unfold wrapper, check.
  destruct (state self) eqn:Hs.
  - right. split; [intros [? _]; discriminate |].
    destruct (func w) as [[v | e] w']; split; reflexivity.
  - destruct (Z.leb_spec (timeout self) (clock w - last_failure_time self)).
    + right. split; [intros [_ ?]; lia |].
      destruct (func w) as [[v | e] w']; split; reflexivity.
    + left. repeat split; [lia].
  - right. split; [intros [? _]; discriminate |].
    destruct (func w) as [[v | e] w']; split; reflexivity.
Qed.


End BreakerMore.

Section BreakerMoreRuns.
Import Breaker.



End BreakerMoreRuns.

(* ================================================================== *)
(** * Properties of the breaker registry and of the decorator stack *)
(* ================================================================== *)

Section RegistryFacts.
Import Breaker Registry.
Context {W A : Type} (clock clock_ms : W -> Z).

(** X5. In the registry of breakers the first registration of a key wins:
    decorating under a key that has no breaker stores a fresh
    [CircuitBreaker(failure_threshold, timeout)]; decorating under a key
    that has one changes nothing, so the parameters of a later decorator
    and the state the breaker has reached are both kept; breakers under
    other keys are never touched. *)
Theorem first_registration_wins (T1 t1 T2 t2 : Z) (func_module func_name : string)
    (registry : gmap string CircuitBreaker) :
  let key := breaker_key func_module func_name in
  let registered := circuit_breaker T1 t1 func_module func_name registry in
  (registry !! key = None -> registered !! key = Some (Breaker.init T1 t1)) /\
  (forall breaker, registry !! key = Some breaker -> registered = registry) /\
  circuit_breaker T2 t2 func_module func_name registered = registered /\
  (forall key', key' <> key -> registered !! key' = registry !! key').
Proof.
  cbn zeta. unfold circuit_breaker.
  destruct (registry !! breaker_key func_module func_name) as [b |] eqn:Hk.
  - repeat split; [done | by rewrite Hk].
  - repeat split.
    + intros _. apply lookup_insert_eq.
    + done.
    + by rewrite lookup_insert_eq.
    + intros key' Hne. by rewrite lookup_insert_ne.
Qed.

(** X6. Functions decorated under one key share one breaker: a call
    through the decorated function stores the breaker [wrapper] leaves
    under the key and touches no other key; and while the stored breaker
    is OPEN with its timeout not elapsed, every function decorated under
    the key is refused with CircuitBreakerError, uninvoked, the registry
    and the world unchanged. *)
Theorem decorated_functions_share_the_breaker (func_module func_name : string)
    (registry : gmap string CircuitBreaker) (breaker : CircuitBreaker) :
  registry !! breaker_key func_module func_name = Some breaker ->
  (forall (func : W -> outcome A * W) (w : W),
      exists result registry' w',
        decorated clock func_module func_name func registry w
        = Some (result, registry', w') /\
        registry' !! breaker_key func_module func_name
        = Some (wrapper clock breaker func_name func w).1.2 /\
        (forall key', key' <> breaker_key func_module func_name ->
                      registry' !! key' = registry !! key')) /\
  (state breaker = OPEN ->
   forall (func : W -> outcome A * W) (w : W),
     clock w - last_failure_time breaker < timeout breaker ->
     decorated clock func_module func_name func registry w
     = Some (Raise (CircuitBreakerError func_name (timeout breaker)), registry, w)).
Proof.
  intros Hk. split.
  - intros func w. unfold decorated. rewrite Hk.
    destruct (wrapper clock breaker func_name func w) as [[result b'] w'] eqn:Hw.
    exists result, (<[breaker_key func_module func_name := b']> registry), w'.
    split; [reflexivity |]. split; [apply lookup_insert_eq |].
    intros key' Hne. by rewrite lookup_insert_ne.
  - intros Hs func w Hlt. unfold decorated. rewrite Hk.
    unfold wrapper, check. rewrite Hs.
    destruct (Z.leb_spec (timeout breaker) (clock w - last_failure_time breaker));
      [lia |].
    by rewrite insert_id.
Qed.

End RegistryFacts.

Section RegistryRuns.
Import Breaker Registry.

Lemma decorated_functions_share_the_breaker_witness :
  let registry :=
    circuit_breaker 3 60 "src.mcp_server.tools.ec2_tools" "start_instance" ∅ in
  exists result registry' w',
    decorated id "src.mcp_server.tools.ec2_tools" "start_instance"
              failing_operation registry 7
    = Some (result, registry', w') /\
    registry' !! breaker_key "src.mcp_server.tools.ec2_tools" "start_instance"
    = Some (wrapper id (Breaker.init 3 60) "start_instance" failing_operation 7).1.2 /\
    (forall key', key' <> breaker_key "src.mcp_server.tools.ec2_tools" "start_instance" ->
                  registry' !! key' = registry !! key').
Proof.
  apply (proj1 (decorated_functions_share_the_breaker (A := string) id
                  "src.mcp_server.tools.ec2_tools" "start_instance" _
                  (Breaker.init 3 60) (lookup_insert_eq _ _ _))).
Defined.
End RegistryRuns.

(* ================================================================== *)
(** * Properties of the audit trail's parameter sanitizing *)
(* ================================================================== *)

Section SanitizeFacts.
Import Audit Sanitized.

(** Induction on parameter values, with the hypothesis for the values of
    a dict. *)
Lemma pyobj_dict_ind (P : pyobj -> Prop) :
  P PNone -> (forall b, P (PBool b)) -> (forall n, P (PInt n)) ->
  (forall s, P (PStr s)) -> (forall l, P (PList l)) ->
  (forall d, Forall (fun item => P item.2) d -> P (PDict d)) ->
  forall value, P value.
Proof.
  intros HN HB HI HS HL HD.
  refine (fix go value {struct value} : P value :=
            match value with
            | PNone => HN
            | PBool b => HB b
            | PInt n => HI n
            | PStr s => HS s
            | PList l => HL l
            | PDict d =>
              HD d ((fix items (d : list (string * pyobj))
                       : Forall (fun item => P item.2) d :=
                       match d with
                       | [] => @List.Forall_nil _ _
                       | item :: d' => @List.Forall_cons _ _ item d' (go item.2) (items d')
                       end) d)
            end).
Qed.

Lemma sanitize_dict (d : list (string * pyobj)) :
  sanitize (PDict d) = PDict (_sanitize_parameters d).
Proof. reflexivity. Qed.

Lemma sanitize_idempotent (value : pyobj) :
  sanitize (sanitize value) = sanitize value.
Proof.
  induction value as [| | | | | d IH] using pyobj_dict_ind; try reflexivity.
  rewrite !sanitize_dict. f_equal. unfold _sanitize_parameters.
  rewrite List.map_map. apply List.map_ext_in. intros [key value] Hin.
  rewrite Forall_forall in IH.
  pose proof (IH (key, value) (proj2 (list_elem_of_In _ _) Hin)) as IHv. cbn in IHv.
  unfold sanitize_item at 2.
  destruct (is_sensitive key) eqn:Hk.
  - unfold sanitize_item. by rewrite Hk.
  - destruct value; unfold sanitize_item; rewrite Hk; try reflexivity.
    rewrite sanitize_dict. rewrite <- sanitize_dict. by rewrite IHv.
Qed.

(** X8. Sanitizing is idempotent: the parameters of an audit entry,
    sanitized once more, are unchanged. *)
Theorem sanitize_parameters_idempotent (parameters : list (string * pyobj)) :
  _sanitize_parameters (_sanitize_parameters parameters)
  = _sanitize_parameters parameters.
Proof.
  pose proof (sanitize_idempotent (PDict parameters)) as Hi.
  rewrite !sanitize_dict in Hi. by injection Hi.
Qed.

Lemma sanitize_redacts (value : pyobj) : redacted_everywhere (sanitize value).
Proof.
  induction value as [| | | | | d IH] using pyobj_dict_ind; try exact I.
  rewrite sanitize_dict. unfold _sanitize_parameters. cbn [redacted_everywhere].
  induction d as [| [key value] d IHd]; [exact I |].
  apply Forall_cons in IH as [IHv IH]. cbn in IHv.
  cbn [List.map fold_right]. split; [| by apply IHd].
  unfold sanitize_item. destruct (is_sensitive key) eqn:Hk; cbn [fst snd].
  - by rewrite Hk.
  - destruct value; cbn [fst snd]; rewrite Hk; try exact I. exact IHv.
Qed.

(** X9. What sanitizing keeps and what it removes: the keys stay, in
    their order; every item with a sensitive key, at every depth of
    nested dicts, ends up as "***REDACTED***"; and a value under a key
    that is not sensitive is kept as it is unless it is a dict (a list
    is not searched, whatever it holds). *)
Theorem sanitize_parameters_redacts_sensitive_keys
    (parameters : list (string * pyobj)) :
  (_sanitize_parameters parameters).*1 = parameters.*1 /\
  redacted_everywhere (PDict (_sanitize_parameters parameters)) /\
  (forall (i : nat) key value,
      parameters !! i = Some (key, value) ->
      (is_sensitive key = true ->
       _sanitize_parameters parameters !! i = Some (key, REDACTED)) /\
      (is_sensitive key = false -> (forall d, value <> PDict d) ->
       _sanitize_parameters parameters !! i = Some (key, value))).
Proof.
  split; [| split].
  - unfold _sanitize_parameters. induction parameters as [| [key value] ps IH];
      [reflexivity |].
    cbn [List.map fmap list_fmap]. f_equal; [| exact IH].
    unfold sanitize_item. destruct (is_sensitive key); [reflexivity |].
    by destruct value.
  - rewrite <- sanitize_dict. apply sanitize_redacts.
  - intros i key value Hi. unfold _sanitize_parameters.
    change (List.map (sanitize_item sanitize) parameters)
      with (sanitize_item sanitize <$> parameters).
    rewrite list_lookup_fmap, Hi. cbn [fmap option_fmap option_map].
    unfold sanitize_item. split.
    + by intros ->.
    + intros -> Hnd. destruct value; try reflexivity. by destruct (Hnd d).
Qed.

Lemma sanitize_without_sensitive_key (value : pyobj) :
  no_sensitive_key value -> sanitize value = value.
Proof.
  induction value as [| | | | | d IH] using pyobj_dict_ind; try reflexivity.
  intros Hno. rewrite sanitize_dict. f_equal. unfold _sanitize_parameters.
  induction d as [| [key value] d IHd]; [reflexivity |].
  apply Forall_cons in IH as [IHv IH]. cbn in IHv.
  cbn [no_sensitive_key fold_right fst snd] in Hno. destruct Hno as (Hk & Hv & Hrest).
  cbn [List.map]. f_equal; [| by apply IHd].
  unfold sanitize_item. rewrite Hk.
  destruct value; try reflexivity. by rewrite (IHv Hv).
Qed.

(** X10. Parameters in which no key is sensitive, at any depth of nested
    dicts, are logged as they are. *)
Theorem sanitize_parameters_keeps_harmless_parameters
    (parameters : list (string * pyobj)) :
  no_sensitive_key (PDict parameters) ->
  _sanitize_parameters parameters = parameters.
Proof.
  intros Hno. pose proof (sanitize_without_sensitive_key (PDict parameters) Hno) as Hs.
  rewrite sanitize_dict in Hs. by injection Hs.
Qed.

Lemma sanitize_parameters_keeps_harmless_parameters_witness :
  _sanitize_parameters
    [("instance_id", PStr "i-0abc"); ("force", PBool true);
     ("filters", PDict [("Name", PStr "tag:env")])]
  = [("instance_id", PStr "i-0abc"); ("force", PBool true);
     ("filters", PDict [("Name", PStr "tag:env")])].
Proof.
  apply sanitize_parameters_keeps_harmless_parameters.
  vm_compute. repeat split.
Defined.

Lemma str_lower_app (a b : string) : str_lower (a ++ b) = str_lower a ++ str_lower b.
Proof.
  induction a as [| c a IH]; [reflexivity |].
  change (String (Re.lower c) (str_lower (a ++ b))
          = String (Re.lower c) (str_lower a ++ str_lower b)).
  by rewrite IH.
Qed.

Lemma startswith_app (p s : string) : Gateway.startswith p (p ++ s) = true.
Proof.
  induction p as [| c p IH]; [by destruct s |].
  change (Ascii.eqb c c && Gateway.startswith p (p ++ s) = true).
  by rewrite Ascii.eqb_refl, IH.
Qed.

Lemma contains_app (a word b : string) : contains word (a ++ word ++ b) = true.
Proof.
  induction a as [| c a IH].
  - change ("" ++ word ++ b) with (word ++ b).
    assert (Hs : Gateway.startswith word (word ++ b) = true) by apply startswith_app.
    destruct (word ++ b); cbn [contains]; by rewrite Hs.
  - change (String c a ++ word ++ b) with (String c (a ++ word ++ b)).
    cbn [contains]. rewrite IH. apply orb_true_r.
Qed.

(** X11. A key is sensitive as soon as it contains one of the six words
    password, secret, token, api_key, access_key, secret_key, in any
    capitalisation and with anything before or after it. *)
Theorem key_containing_sensitive_word_is_sensitive (a key b word : string) :
  word ∈ sensitive_keys -> str_lower key = word ->
  is_sensitive (a ++ key ++ b) = true.
Proof.
  intros Hin Hlow. unfold is_sensitive. apply existsb_exists.
  exists word. split; [by apply list_elem_of_In |].
  cbv beta. rewrite !str_lower_app, Hlow. apply contains_app.
Qed.

Lemma key_containing_sensitive_word_is_sensitive_witness :
  is_sensitive ("DB_" ++ "PassWord" ++ "_main") = true.
Proof.
  apply (key_containing_sensitive_word_is_sensitive "DB_" "PassWord" "_main" "password").
  - repeat constructor.
  - reflexivity.
Defined.
End SanitizeFacts.

(* ================================================================== *)
(** * Further properties of the rate limiter *)
(* ================================================================== *)

Section LimiterMore.
Import Limiter Usage.

Lemma list_ascii_app (a b : string) :
  list_ascii_of_string (a ++ b)
  = (list_ascii_of_string a ++ list_ascii_of_string b)%list.
Proof.
  induction a as [| c a IH]; [reflexivity |].
  change (c :: list_ascii_of_string (a ++ b)
          = c :: (list_ascii_of_string a ++ list_ascii_of_string b)%list).
  by rewrite IH.
Qed.

(** Two keys built on different final words are different, whatever the
    ids in them. *)
Lemma key_suffix_ne (p q a b x y : string) (cx cy : ascii) :
  last (list_ascii_of_string x) = Some cx ->
  last (list_ascii_of_string y) = Some cy ->
  cx <> cy ->
  p ++ a ++ x <> q ++ b ++ y.
Proof.
  intros Hx Hy Hne Heq. apply (f_equal list_ascii_of_string) in Heq.
  rewrite !list_ascii_app in Heq. apply (f_equal last) in Heq.
  rewrite !last_app, Hx, Hy in Heq. congruence.
Qed.

Lemma hour_user_key_ne (u u' : string) : hour_key u <> user_key u'.
Proof.
  apply (key_suffix_ne _ _ _ _ ":hour" ":minute" "r" "e"); [done | done | discriminate].
Qed.

Lemma hour_token_key_ne (u u' : string) : hour_key u <> token_key u'.
Proof.
  apply (key_suffix_ne _ _ _ _ ":hour" ":tokens:day" "r" "y");
    [done | done | discriminate].
Qed.

Lemma hour_tenant_key_ne (u t : string) : hour_key u <> tenant_key t.
Proof. unfold hour_key, tenant_key. cbn. discriminate. Qed.

Lemma user_token_key_ne (u u' : string) : user_key u <> token_key u'.
Proof.
  apply (key_suffix_ne _ _ _ _ ":minute" ":tokens:day" "e" "y");
    [done | done | discriminate].
Qed.

Lemma tenant_token_key_ne (t u : string) : tenant_key t <> token_key u.
Proof. unfold tenant_key, token_key. cbn. discriminate. Qed.

(** A counter command writes one key and nothing else. *)
Lemma increment_frame (key key' : string) (window n : Z) (r : Redis) :
  let r' := (_increment_counter key window n r).2 in
  up r' = up r /\ now r' = now r /\ (key' <> key -> db r' !! key' = db r !! key').
Proof.
  cbn zeta. unfold _increment_counter; cbn [incr expire redis_client].
  unfold redis_incr, redis_expire, live, with_db.
  repeat (case_match; simplify_eq/=);
    (split; [done |]); (split; [done |]);
    intros Hne; rewrite ?lookup_insert_ne by done; done.
Qed.

Lemma check_limit_frame (user_id tenant key' : string) (tokens : Z) (r : Redis) :
  let r' := (check_limit user_id tenant tokens r).2 in
  up r' = up r /\ now r' = now r /\
  (key' <> user_key user_id -> key' <> tenant_key tenant ->
   key' <> token_key user_id -> db r' !! key' = db r !! key').
Proof.
  cbn zeta. unfold check_limit.
  pose proof (increment_frame (user_key user_id) key' 60 1 r) as Hu.
  destruct (_increment_counter (user_key user_id) 60 1 r) as [uc r1].
  cbn [snd] in Hu. destruct Hu as (Hu1 & Hu2 & Hu3).
  destruct (_ <? uc); [cbn [snd]; by auto |].
  pose proof (increment_frame (tenant_key tenant) key' 3600 1 r1) as Ht.
  destruct (_increment_counter (tenant_key tenant) 3600 1 r1) as [tc r2].
  cbn [snd] in Ht. destruct Ht as (Ht1 & Ht2 & Ht3).
  destruct (_ <? tc); [cbn [snd]; repeat split; try congruence;
                       intros; rewrite Ht3, Hu3 by done; done |].
  destruct (0 <? tokens).
  - pose proof (increment_frame (token_key user_id) key' 86400 tokens r2) as Hk.
    destruct (_increment_counter (token_key user_id) 86400 tokens r2) as [kc r3].
    cbn [snd] in Hk. destruct Hk as (Hk1 & Hk2 & Hk3).
    destruct (_ && _); cbn [snd]; repeat split; try congruence;
      intros; rewrite Hk3, Ht3, Hu3 by done; done.
  - cbn [andb snd]. repeat split; try congruence.
    intros; rewrite Ht3, Hu3 by done; done.
Qed.



Lemma step_frame (glob : string -> string -> bool) (o : op) (r : Redis) :
  up (step glob o r) = up r /\
  ((forall u, db r !! hour_key u = None) ->
   forall u, db (step glob o r) !! hour_key u = None).
Proof.
  destruct o as [dt | user_id tenant tokens | user_id]; cbn [step].
  - split; [reflexivity | auto].
  - destruct (check_limit_frame user_id tenant (hour_key "") tokens r) as (Hup & _ & _).
    split; [exact Hup |]. intros Hfree u.
    destruct (check_limit_frame user_id tenant (hour_key u) tokens r) as (_ & _ & Hdb).
    rewrite Hdb; [apply Hfree | apply hour_user_key_ne | apply hour_tenant_key_ne
                  | apply hour_token_key_ne].
  - unfold reset_limits; cbn [keys delete redis_keys_client].
    unfold redis_keys, redis_delete.
    destruct (up r) eqn:Hup; [| by rewrite ?Hup].
    destruct (List.filter _ _) as [| key ks] eqn:Hks; [by rewrite ?Hup |].
    rewrite Hup. cbn [snd with_db up db]. split; [done |].
    intros Hfree u.
    destruct (foldr (λ key0 d, base.delete key0 d) (db r) (key :: ks) !! hour_key u)
      as [x |] eqn:Hl; [| reflexivity].
    apply (lookup_foldr_delete_Some (db r) (key :: ks)) in Hl as [_ Hl].
    by rewrite Hfree in Hl.
Qed.

Lemma run_frame (glob : string -> string -> bool) (ops : list op) :
  forall r : Redis,
    up (run glob ops r) = up r /\
    ((forall u, db r !! hour_key u = None) ->
     forall u, db (run glob ops r) !! hour_key u = None).
Proof.
  unfold run. induction ops as [| o ops IH]; intros r; [by split |].
  cbn [foldl]. destruct (IH (step glob o r)) as [IH1 IH2].
  destruct (step_frame glob o r) as [H1 H2].
  split; [congruence | auto].
Qed.

(** X13. [get_usage] reads the user's requests per hour from a key that
    [check_limit] never writes: on a store that starts without such keys,
    after any sequence of checked requests, resets and passing time,
    [get_usage] reports [requests_per_hour = 0] for every user. *)
Theorem usage_per_hour_is_always_zero (glob : string -> string -> bool)
    (ops : list op) (r : Redis) (user_id : string) :
  up r = true -> (forall u, db r !! hour_key u = None) ->
  (get_usage (H := redis_keys_client glob) user_id (run glob ops r)).1
    !! "requests_per_hour" = Some 0.
Proof.
  intros Hup Hfree. destruct (run_frame glob ops r) as [Hup' Hfree'].
  specialize (Hfree' Hfree user_id). rewrite Hup in Hup'.
  unfold get_usage; cbn [get redis_keys_client]. unfold redis_get.
  assert (Hl : live (run glob ops r) (hour_key user_id) = None)
    by (unfold live; by rewrite Hfree').
  rewrite !Hup', Hl. cbn [fst snd fmap option_fmap option_map default].
  rewrite lookup_insert_ne by discriminate. apply lookup_insert_eq.
Qed.

Lemma usage_per_hour_is_always_zero_witness :
  (get_usage (H := redis_keys_client prefix_glob) "u1"
     (run prefix_glob [Check "u1" "t1" 0; Tick 5; Check "u1" "t1" 0; Reset "u2"]
          {| up := true; now := 0; db := ∅ |})).1
    !! "requests_per_hour" = Some 0.
Proof.
  apply usage_per_hour_is_always_zero; [reflexivity |].
  intros u. apply lookup_empty.
Defined.

Lemma serve_requests (user_id tenant : string) (dts : list Z) :
  forall r : Redis, (serve user_id tenant dts r).1 = requests user_id tenant dts r.
Proof.
  induction dts as [| dt dts IH]; intros r; [reflexivity |].
  cbn [serve requests]. destruct (check_limit _ _ _ _) as [d r1].
  specialize (IH r1). destruct (serve user_id tenant dts r1) as [ds r2].
  cbn [fst] in *. by rewrite IH.
Qed.


(** The store after requests that all stay below the limits. *)
Lemma serve_live_state (user_id tenant : string) (dts : list Z) :
  forall (r : Redis) (k kt e et : Z),
    up r = true ->
    db r !! user_key user_id = Some (k, Some e) ->
    db r !! tenant_key tenant = Some (kt, Some et) ->
    1 <= k -> 1 <= kt ->
    k + Z.of_nat (List.length dts) <= 100 ->
    kt + Z.of_nat (List.length dts) <= 10000 ->
    Forall (fun dt => 0 <= dt) dts ->
    now r + sumZ dts < e -> now r + sumZ dts < et ->
    let r' := (serve user_id tenant dts r).2 in
    up r' = true /\ now r' = now r + sumZ dts /\
    db r' !! user_key user_id = Some (k + Z.of_nat (List.length dts), Some e) /\
    db r' !! tenant_key tenant = Some (kt + Z.of_nat (List.length dts), Some et).
Proof.
  induction dts as [| dt dts IH];
    intros r k kt e et Hup Hu Ht Hk Hkt Hcu Hct Hpos He Het.
  - cbn. rewrite !Z.add_0_r. by repeat split.
  - apply Forall_cons in Hpos as [Hdt Hpos].
    pose proof (sumZ_nonneg dts Hpos) as Hs.
    cbn [sumZ foldr] in He, Het |- *. fold (sumZ dts) in He, Het |- *.
    cbn [List.length] in Hcu, Hct |- *.
    cbn [serve].
    rewrite (check_limit_under _ _ _ k kt (Some e) (Some et));
      [| done | apply live_entry; cbn; [done | lia] | lia
       | apply live_entry; cbn; [done | lia] | lia].
    match goal with
    | |- context [serve user_id tenant dts ?s] =>
      pose proof (IH s (k + 1) (kt + 1) e et) as IHs;
      destruct (serve user_id tenant dts s) as [ds r2]
    end.
    cbn [snd] in IHs |- *. cbn [with_db tick up now db] in IHs.
    destruct IHs as (H1 & H2 & H3 & H4); try lia; try done.
    + rewrite lookup_insert_ne by (apply not_eq_sym, user_tenant_key_ne).
      apply lookup_insert_eq.
    + apply lookup_insert_eq.
    + repeat split; [done | lia | rewrite H3; do 2 f_equal; lia
                     | rewrite H4; do 2 f_equal; lia].
Qed.

(** The store after the first requests of a user on fresh counters,
    all within the first minute and at most 100. *)
Lemma serve_fresh_state (user_id tenant : string) (dt : Z) (dts : list Z) (r : Redis) :
  up r = true ->
  live (tick dt r) (user_key user_id) = None ->
  live (tick dt r) (tenant_key tenant) = None ->
  Forall (fun dt => 0 <= dt) dts -> sumZ dts < 60 ->
  Z.of_nat (List.length (dt :: dts)) <= 100 ->
  let r' := (serve user_id tenant (dt :: dts) r).2 in
  up r' = true /\ now r' = now r + dt + sumZ dts /\
  db r' !! user_key user_id
  = Some (Z.of_nat (List.length (dt :: dts)), Some (now r + dt + 60)) /\
  db r' !! tenant_key tenant
  = Some (Z.of_nat (List.length (dt :: dts)), Some (now r + dt + 3600)).
Proof.
  intros Hup Hu Ht Hpos Hwin Hlen. cbn [List.length] in Hlen |- *.
  cbn [serve]. rewrite check_limit_fresh by done.
  match goal with
  | |- context [serve user_id tenant dts ?s] =>
    pose proof (serve_live_state user_id tenant dts s 1 1
                  (now r + dt + 60) (now r + dt + 3600)) as Hs;
    destruct (serve user_id tenant dts s) as [ds r2]
  end.
  cbn [snd] in Hs |- *. cbn [with_db tick up now db] in Hs.
  destruct Hs as (H1 & H2 & H3 & H4); try lia; try done.
  - rewrite lookup_insert_ne by (apply not_eq_sym, user_tenant_key_ne).
    apply lookup_insert_eq.
  - apply lookup_insert_eq.
  - repeat split; [done | lia | rewrite H3; do 2 f_equal; lia
                   | rewrite H4; do 2 f_equal; lia].
Qed.

(** X14. [get_usage] reads back what [check_limit] counted: after the
    first [n <= 100] requests of a user, made within one minute on fresh
    counters, it reports [requests_per_minute = n]. *)
Theorem usage_reports_the_requests_of_the_minute (glob : string -> string -> bool)
    (user_id tenant : string) (dt : Z) (dts : list Z) (r : Redis) :
  up r = true ->
  live (tick dt r) (user_key user_id) = None ->
  live (tick dt r) (tenant_key tenant) = None ->
  Forall (fun dt => 0 <= dt) dts -> sumZ dts < 60 ->
  Z.of_nat (List.length (dt :: dts)) <= 100 ->
  (get_usage (H := redis_keys_client glob) user_id
     (serve user_id tenant (dt :: dts) r).2).1
    !! "requests_per_minute" = Some (Z.of_nat (List.length (dt :: dts))).
Proof.
  intros Hup Hu Ht Hpos Hwin Hlen.
  destruct (serve_fresh_state user_id tenant dt dts r Hup Hu Ht Hpos Hwin Hlen)
    as (Hup' & Hnow & Hdb & _).
  set (r' := (serve user_id tenant (dt :: dts) r).2) in *.
  assert (Hl : live r' (user_key user_id)
               = Some (Z.of_nat (List.length (dt :: dts)), Some (now r + dt + 60)))
    by (apply live_entry; [done | lia]).
  unfold get_usage; cbn [get redis_keys_client]. unfold redis_get.
  rewrite !Hup', Hl. cbn [fst snd fmap option_fmap option_map default].
  apply lookup_insert_eq.
Qed.

Lemma usage_reports_the_requests_of_the_minute_witness :
  let r := {| up := true; now := 0; db := ∅ |} in
  (get_usage (H := redis_keys_client prefix_glob) "u1"
     (serve "u1" "t1" [0; 1; 1] r).2).1
    !! "requests_per_minute" = Some (Z.of_nat (List.length [0; 1; 1])).
Proof.
  intros r. apply usage_reports_the_requests_of_the_minute.
  - reflexivity.
  - unfold live; cbn [db tick r]. by rewrite lookup_empty.
  - unfold live; cbn [db tick r]. by rewrite lookup_empty.
  - repeat constructor; lia.
  - cbn; lia.
  - cbn; lia.
Defined.

(** A request of a user whose own counter is not live while the tenant's
    is: admitted as the user's first, and the tenant's counter goes on. *)
Lemma check_limit_user_fresh (user_id tenant : string) (r : Redis) (kt : Z) et :
  up r = true ->
  live r (user_key user_id) = None ->
  live r (tenant_key tenant) = Some (kt, et) -> 1 <= kt < 10000 ->
  check_limit user_id tenant 0 r
  = ((true, {[ "user_requests" := 1; "tenant_requests" := kt + 1;
               "tokens_used" := 0 ]}),
     with_db (<[tenant_key tenant := (kt + 1, et)]>
                (<[user_key user_id := (1, Some (now r + 60))]> (db r))) r).
Proof.
  intros Hup Hu Ht Hkt. unfold check_limit.
  rewrite increment_fresh by done. rewrite limit_per_minute, limit_per_hour.
  change (100 <? 1) with false. cbv beta iota.
  rewrite (increment_live _ 3600 1 kt et); [| exact Hup | | lia].
  2: { rewrite live_other by apply user_tenant_key_ne. exact Ht. }
  destruct (Z.ltb_spec (1000 * 10) (kt + 1)); [lia |].
  reflexivity.
Qed.




(** The keys KEYS returns: the live keys the pattern matches. *)
Lemma redis_keys_spec (glob : string -> string -> bool) (pattern key : string)
    (r : Redis) :
  In key (List.filter (fun key => glob pattern key && bool_decide (is_Some (live r key)))
                      (map_to_list (db r)).*1)
  <-> glob pattern key = true /\ is_Some (live r key).
Proof.
  rewrite List.filter_In, andb_true_iff, bool_decide_eq_true. split.
  - intros [_ [Hg Hl]]. by split.
  - intros [Hg Hl]. split; [| by split].
    apply list_elem_of_In, list_elem_of_fmap.
    destruct Hl as [x Hx]. unfold live in Hx.
    destruct (db r !! key) as [y |] eqn:Hdb; [| discriminate].
    exists (key, y). split; [reflexivity |]. by apply elem_of_map_to_list.
Qed.

Lemma reset_limits_store (glob : string -> string -> bool) (user_id : string)
    (r : Redis) :
  up r = true ->
  reset_limits (H := redis_keys_client glob) user_id r
  = with_db (foldr base.delete (db r)
               (List.filter
                  (fun key => glob ("rate_limit:user:" ++ user_id ++ ":*") key
                              && bool_decide (is_Some (live r key)))
                  (map_to_list (db r)).*1)) r.
Proof.
  intros Hup. unfold reset_limits; cbn [keys delete redis_keys_client].
  unfold redis_keys, redis_delete. rewrite Hup.
  destruct (List.filter _ _) as [| key ks]; [| by rewrite Hup].
  destruct r; reflexivity.
Qed.

(** X16. [reset_limits] removes the live counters of the user that the
    KEYS pattern rate_limit:user:<id>:* finds and nothing else: provided
    the pattern matches the user's two counter keys (as it does for an
    id without glob characters), both are gone afterwards, every key the
    pattern does not match is as before, and the user's next request is
    admitted as request number 1 of a new minute, while the tenant's
    counter, which the pattern does not match, goes on from where it
    was. *)
Theorem reset_limits_restarts_the_user (glob : string -> string -> bool)
    (user_id : string) (r : Redis) :
  up r = true ->
  glob ("rate_limit:user:" ++ user_id ++ ":*") (user_key user_id) = true ->
  glob ("rate_limit:user:" ++ user_id ++ ":*") (token_key user_id) = true ->
  let r' := reset_limits (H := redis_keys_client glob) user_id r in
  live r' (user_key user_id) = None /\
  live r' (token_key user_id) = None /\
  (forall key, glob ("rate_limit:user:" ++ user_id ++ ":*") key = false ->
               db r' !! key = db r !! key) /\
  (forall tenant kt et,
      glob ("rate_limit:user:" ++ user_id ++ ":*") (tenant_key tenant) = false ->
      live r (tenant_key tenant) = Some (kt, et) -> 1 <= kt < 10000 ->
      (check_limit user_id tenant 0 r').1
      = (true, {[ "user_requests" := 1; "tenant_requests" := kt + 1;
                  "tokens_used" := 0 ]})).
Proof.
  intros Hup Hgu Hgk. cbn zeta. rewrite reset_limits_store by done.
  set (pattern := "rate_limit:user:" ++ user_id ++ ":*") in *.
  set (ks := List.filter _ _).
  assert (Hgone : forall key, glob pattern key = true ->
                              live (with_db (foldr base.delete (db r) ks) r) key = None).
  { intros key Hg. unfold live; cbn [with_db db now].
    destruct (foldr base.delete (db r) ks !! key) as [[v e] |] eqn:Hl; [| reflexivity].
    apply lookup_foldr_delete_Some in Hl as [Hnot Hl].
    destruct e as [e |].
    - destruct (Z.leb_spec e (now r)); [reflexivity |]. exfalso. apply Hnot.
      apply list_elem_of_In, redis_keys_spec. split; [exact Hg |].
      exists (v, Some e). unfold live. rewrite Hl.
      destruct (Z.leb_spec e (now r)); [lia | reflexivity].
    - exfalso. apply Hnot. apply list_elem_of_In, redis_keys_spec.
      split; [exact Hg |]. exists (v, None). unfold live. by rewrite Hl. }
  assert (Hkept : forall key, glob pattern key = false ->
                              foldr base.delete (db r) ks !! key = db r !! key).
  { intros key Hg. apply lookup_foldr_delete_not_elem_of. intros Hin.
    apply list_elem_of_In, redis_keys_spec in Hin as [Hg' _]. congruence. }
  split; [by apply Hgone |]. split; [by apply Hgone |]. split; [exact Hkept |].
  intros tenant kt et Hgt Hlt Hkt.
  rewrite (check_limit_user_fresh _ _ _ kt et); [reflexivity | done | by apply Hgone | | done].
  unfold live in *; cbn [with_db db now]. by rewrite Hkept.
Qed.

Lemma reset_limits_restarts_the_user_witness :
  let r := {| up := true; now := 10;
              db := {[ "rate_limit:user:user_123:minute" := (101, Some 60) ]} |} in
  let r' := reset_limits (H := redis_keys_client prefix_glob) "user_123" r in
  live r' (user_key "user_123") = None /\
  live r' (token_key "user_123") = None /\
  (forall key, prefix_glob ("rate_limit:user:" ++ "user_123" ++ ":*") key = false ->
               db r' !! key = db r !! key) /\
  (forall tenant kt et,
      prefix_glob ("rate_limit:user:" ++ "user_123" ++ ":*") (tenant_key tenant) = false ->
      live r (tenant_key tenant) = Some (kt, et) -> 1 <= kt < 10000 ->
      (check_limit "user_123" tenant 0 r').1
      = (true, {[ "user_requests" := 1; "tenant_requests" := kt + 1;
                  "tokens_used" := 0 ]})).
Proof.
  intros r.
  apply (reset_limits_restarts_the_user prefix_glob "user_123" r);
    vm_compute; reflexivity.
Defined.
End LimiterMore.

Section TenantScope.
Import Limiter Usage.

Lemma list_ascii_inj (a b : string) :
  list_ascii_of_string a = list_ascii_of_string b -> a = b.
Proof.
  intros Heq. rewrite <- (string_of_list_ascii_of_string a),
    <- (string_of_list_ascii_of_string b). by rewrite Heq.
Qed.

Lemma user_key_inj (u u' : string) : user_key u = user_key u' -> u = u'.
Proof.
  unfold user_key. intros Heq. apply (f_equal list_ascii_of_string) in Heq.
  rewrite !list_ascii_app in Heq.
  apply app_inv_head, app_inv_tail in Heq. by apply list_ascii_inj.
Qed.

(** X26. The tenant's quota is shared by the tenant's users: when a user
    opens the tenant's window with a first request, the first request of
    another user of the same tenant, made within that hour, is counted
    as request 1 of that user and request 2 of the tenant. *)
Theorem tenant_counter_is_shared_by_its_users (u1 u2 tenant : string)
    (dt1 dt2 : Z) (r : Redis) :
  up r = true -> u1 <> u2 ->
  live (tick dt1 r) (user_key u1) = None ->
  live (tick dt1 r) (tenant_key tenant) = None ->
  db r !! user_key u2 = None ->
  0 <= dt2 < 3600 ->
  (check_limit u2 tenant 0 (tick dt2 (check_limit u1 tenant 0 (tick dt1 r)).2)).1
  = (true, {[ "user_requests" := 1; "tenant_requests" := 2; "tokens_used" := 0 ]}).
Proof.
  intros Hup Hne Hu Ht Hu2 Hdt.
  rewrite (check_limit_fresh u1 tenant (tick dt1 r) Hup Hu Ht). cbn [snd].
  rewrite (check_limit_user_fresh _ _ _ 1 (Some (now r + dt1 + 3600)));
    [reflexivity | exact Hup | | | lia].
  - unfold live; cbn [tick with_db db now].
    rewrite lookup_insert_ne by apply not_eq_sym, user_tenant_key_ne.
    rewrite lookup_insert_ne by (intros Heq; apply Hne; by apply user_key_inj).
    by rewrite Hu2.
  - apply live_entry; cbn [tick with_db db now]; [apply lookup_insert_eq | lia].
Qed.

Lemma tenant_counter_is_shared_by_its_users_witness :
  let r := {| up := true; now := 0; db := ∅ |} in
  (check_limit "bob" "acme" 0 (tick 5 (check_limit "alice" "acme" 0 (tick 0 r)).2)).1
  = (true, {[ "user_requests" := 1; "tenant_requests" := 2; "tokens_used" := 0 ]}).
Proof.
  intros r. apply tenant_counter_is_shared_by_its_users.
  - reflexivity.
  - discriminate.
  - unfold live; cbn [db tick r]. by rewrite lookup_empty.
  - unfold live; cbn [db tick r]. by rewrite lookup_empty.
  - apply lookup_empty.
  - lia.
Defined.
End TenantScope.

(* ================================================================== *)
(** * Further properties of the admission pipeline *)
(* ================================================================== *)

Section GatewayMore.
Import Policy Gateway.
Context {R : Type} `{Limiter.RedisClient R}.

(** X17. The pipeline has no rollback and no other access to the counter
    store: whatever the outcome (429, 403, 500 or a response), the store
    after [chat_completion] is the store [check_limit] left, so a
    request that is denied or fails later has used its quota; and what
    was emitted before stays, the pipeline only appends. *)
Theorem pipeline_consumes_quota_whatever_the_outcome (c : Components)
    (request : ChatRequest) (user : User) (w : World) :
  redis (chat_completion c request user w).2
  = (Limiter.check_limit (user_id user) (tenant user) 0 (redis w)).2 /\
  exists emitted,
    trace (chat_completion c request user w).2 = (trace w ++ emitted)%list.
Proof.
  unfold chat_completion.
  destruct (Limiter.check_limit _ _ _ _) as [[is_allowed limit_info] r].
  destruct is_allowed; cbn [negb snd].
  2: { split; [reflexivity |]. exists []. by rewrite app_nil_r. }
  destruct (truthy _); cbn [negb snd].
  2: { split; [reflexivity |]. exists []. by rewrite app_nil_r. }
  rewrite redact_scan_never_blocks.
  destruct (route _ _ _ _ _) as [model_response | e];
    cbn [snd trace log emit redis]; (split; [reflexivity |]).
  - rewrite <- app_assoc. eexists. reflexivity.
  - eexists. reflexivity.
Qed.


(** X19. A request reaches the model router exactly when the rate limiter
    admits it and the policy decision is truthy: then one dispatch, with
    the request's model and messages, is added to what was dispatched
    before; in every other case nothing is dispatched. *)
Theorem dispatch_iff_admitted_and_authorized (c : Components)
    (request : ChatRequest) (user : User) (w : World) :
  let w' := (chat_completion c request user w).2 in
  let admitted := (Limiter.check_limit (user_id user) (tenant user) 0 (redis w)).1.1 in
  let authorized :=
    truthy (evaluate (policy_engine c) user "chat" {[ "model" := req_model request ]}) in
  (admitted && authorized = true ->
   dispatches (trace w')
   = (dispatches (trace w)
      ++ [(req_model request,
           (fun msg => (msg_role msg, msg_content msg)) <$> messages request)])%list) /\
  (admitted && authorized = false -> dispatches (trace w') = dispatches (trace w)).
Proof.
  cbn zeta. unfold chat_completion.
  destruct (Limiter.check_limit _ _ _ _) as [[is_allowed limit_info] r].
  cbn [fst]. destruct is_allowed; cbn [negb andb snd trace]; [| by split].
  destruct (truthy _); cbn [negb snd trace]; [| by split].
  rewrite redact_scan_never_blocks. split; [intros _ | discriminate].
  destruct (route _ _ _ _ _) as [model_response | e];
    cbn [snd trace log emit redis];
    unfold dispatches; rewrite !omap_app; cbn; by rewrite ?app_nil_r.
Qed.

(** X20. What a successful request returns and records: the response is
    the model's content, rewritten (to the redact-mode text of the
    outbound scan) only when the analyzer reports an entity in it, so
    pattern matches alone leave it as the model wrote it; and the last
    thing emitted is one audit entry with status "success", the
    requested model, and the tokens and cost of the completion. *)
Theorem successful_request_response_and_audit (c : Components)
    (request : ChatRequest) (user : User) (w : World) (resp : ChatResponse) :
  (chat_completion c request user w).1 = Return resp ->
  exists model_response entry,
    route (model_router c) (req_model request)
          ((fun msg => (msg_role msg, msg_content msg)) <$> messages request)
          (temperature request) (max_tokens request)
    = Return model_response /\
    (DLP.analyzer (dlp_engine c) (content model_response) "en" = [] ->
     response resp = content model_response) /\
    (DLP.analyzer (dlp_engine c) (content model_response) "en" <> [] ->
     response resp
     = DLP.redacted_text
         (DLP.scan (dlp_engine c) (content model_response) "redact" "en")) /\
    last (trace (chat_completion c request user w).2) = Some (Audit entry) /\
    audit_status entry = "success" /\ audit_error entry = None /\
    audit_model entry = req_model request /\
    audit_user_id entry = user_id user /\ audit_tenant entry = tenant user /\
    audit_tokens_used entry = tokens_used model_response /\
    audit_cost_usd entry = cost model_response.
Proof.
  unfold chat_completion.
  destruct (Limiter.check_limit _ _ _ _) as [[is_allowed limit_info] r].
  destruct is_allowed; cbn [negb fst]; [| discriminate].
  destruct (truthy _); cbn [negb fst]; [| discriminate].
  rewrite redact_scan_never_blocks.
  destruct (route _ _ _ _ _) as [model_response | e']; cbn [fst snd]; [| discriminate].
  intros [= <-]. eexists model_response, _. split; [reflexivity |].
  cbn [response]. unfold DLP.scan at 1 3; cbn [DLP.pii_detected].
  split; [by intros -> |]. split.
  - intros Hne. by destruct (DLP.analyzer _ _ _).
  - unfold log, emit; cbn [trace]. rewrite last_snoc. by repeat split.
Qed.
End GatewayMore.

Section GatewayMoreRuns.
Import Limiter Policy Gateway.


Lemma successful_request_response_and_audit_witness :
  let c := components DLP.plain_engine true working_router in
  let run := chat_completion (H := redis_client) c (chat "password: hunter2")
               current_user (start fresh_store) in
  exists model_response entry,
    route (model_router c) (req_model (chat "password: hunter2"))
          ((fun msg => (msg_role msg, msg_content msg))
             <$> messages (chat "password: hunter2"))
          (temperature (chat "password: hunter2"))
          (max_tokens (chat "password: hunter2"))
    = Return model_response /\
    (DLP.analyzer (dlp_engine c) (content model_response) "en" = [] ->
     response {| chat_model := "gpt-4"; response := "Hello"; meta_tokens_used := 12;
                 meta_cost := 0%Q; meta_pii_detected := false;
                 meta_pii_entities := []; meta_latency_ms := 5 |}
     = content model_response) /\
    (DLP.analyzer (dlp_engine c) (content model_response) "en" <> [] ->
     response {| chat_model := "gpt-4"; response := "Hello"; meta_tokens_used := 12;
                 meta_cost := 0%Q; meta_pii_detected := false;
                 meta_pii_entities := []; meta_latency_ms := 5 |}
     = DLP.redacted_text
         (DLP.scan (dlp_engine c) (content model_response) "redact" "en")) /\
    last (trace run.2) = Some (Audit entry) /\
    audit_status entry = "success" /\ audit_error entry = None /\
    audit_model entry = req_model (chat "password: hunter2") /\
    audit_user_id entry = user_id current_user /\
    audit_tenant entry = tenant current_user /\
    audit_tokens_used entry = tokens_used model_response /\
    audit_cost_usd entry = cost model_response.
Proof.
  intros c run.
  apply (successful_request_response_and_audit (H := redis_client) c
           (chat "password: hunter2") current_user (start fresh_store)).
  vm_compute. reflexivity.
Defined.
End GatewayMoreRuns.

(* ================================================================== *)
(** * Further properties of the policy client, router and scanner *)
(* ================================================================== *)

Section PolicyMore.
Import Policy.

(** X21. The policy client is closed by default in every respect: the
    decision [evaluate] returns is truthy only when OPA answered with
    status 200, the body was JSON, and the document holds a truthy
    "result"; a missing "result", an unreadable body, another status or
    a failed request all give a falsy decision. *)
Theorem evaluate_allows_only_on_opa_consent (self : PolicyEngine) (user : User)
    (action : string) (resource : gmap string string) :
  truthy (evaluate self user action resource) = true <->
  exists response result decision,
    client_post self (opa_url self ++ policy_path self)
      {| input_user := user; input_action := action; input_resource := resource |}
    = Return response /\
    status_code response = 200 /\
    json response = Return result /\
    result !! "result" = Some decision /\
    truthy decision = true.
Proof.
  unfold evaluate. split.
  - destruct (client_post _ _ _) as [response | e]; [| discriminate].
    destruct (Z.eqb_spec (status_code response) 200) as [Hs | _]; [| discriminate].
    destruct (json response) as [result | e] eqn:Hj; [| discriminate].
    destruct (result !! "result") as [decision |] eqn:Hr; [| discriminate].
    cbn [default]. intros Ht. by exists response, result, decision.
  - intros (response & result & decision & -> & Hs & Hj & Hr & Ht).
    rewrite Hs, Hj, Hr. exact Ht.
Qed.
End PolicyMore.

Section RouterMore.
Import Gateway.

End RouterMore.

Section ScannerMore.
Import Re DLP.






Lemma confidence_fold (results : list RecognizerResult) (entity : string) :
  foldl (fun d result => <[entity_type result := score result]> d)
        (∅ : gmap string Q) results !! entity
  = score <$> last (filter (fun result => entity_type result = entity) results).
Proof.
  induction results as [| result results IH] using rev_ind; [reflexivity |].
  rewrite foldl_app, filter_app. cbn [foldl].
  destruct (decide (entity_type result = entity)) as [<- | Hne].
  - rewrite lookup_insert_eq. rewrite filter_cons_True by done.
    rewrite filter_nil, last_snoc. reflexivity.
  - rewrite lookup_insert_ne by done. rewrite filter_cons_False by done.
    rewrite filter_nil, app_nil_r. exact IH.
Qed.

(** X24. What a scan reports about entities: [pii_detected] tells whether
    the analyzer returned anything; [pii_entities] lists each detected
    entity type once; and [confidence_scores] has, for each entity type,
    the score of the last detection of that type (earlier scores of the
    same type are overwritten) and no entry for other types. *)
Theorem scan_reports_entities (self : DLPEngine) (text mode language : string) :
  let results := analyzer self text language in
  let report := scan self text mode language in
  (pii_detected report = true <-> results <> []) /\
  NoDup (pii_entities report) /\
  (forall entity, entity ∈ pii_entities report <->
                  exists result, result ∈ results /\ entity_type result = entity) /\
  (forall entity,
      confidence_scores report !! entity
      = score <$> last (filter (fun result => entity_type result = entity) results)).
Proof.
  cbn zeta. unfold scan; cbn [pii_detected pii_entities confidence_scores].
  repeat split.
  - by destruct (analyzer self text language).
  - intros Hne. by destruct (analyzer self text language).
  - destruct (analyzer self text language); [apply NoDup_nil_2 | apply NoDup_remove_dups].
  - intros Hin. destruct (analyzer self text language) as [| r rs] eqn:Ha;
      [by apply not_elem_of_nil in Hin |].
    apply elem_of_remove_dups, list_elem_of_fmap in Hin as [result [-> Hin]].
    by exists result.
  - intros [result [Hin <-]]. destruct (analyzer self text language) as [| r rs] eqn:Ha;
      [by apply not_elem_of_nil in Hin |].
    apply elem_of_remove_dups, list_elem_of_fmap. by exists result.
  - intros entity. apply confidence_fold.
Qed.
End ScannerMore.

(* ================================================================== *)
(** * Properties of the tool dispatch *)
(* ================================================================== *)

Section ServerFacts.
Import Server.
Context {W A : Type}.

Lemma split_once_dotless (s : string) :
  ~ In "."%char (list_ascii_of_string s) -> split_once s = None.
Proof.
  induction s as [| a s IH]; [reflexivity |]. intros Hno. cbn [split_once].
  destruct (Ascii.eqb_spec a ".") as [-> | Hne].
  - exfalso. apply Hno. by left.
  - rewrite IH; [reflexivity |]. intros Hin. apply Hno. by right.
Qed.

Lemma split_once_first_dot (category operation : string) :
  ~ In "."%char (list_ascii_of_string category) ->
  split_once (category ++ "." ++ operation) = Some (category, operation).
Proof.
  induction category as [| a category IH]; intros Hno; [reflexivity |].
  change (String a category ++ "." ++ operation)
    with (String a (category ++ "." ++ operation)).
  cbn [split_once].
  destruct (Ascii.eqb_spec a ".") as [-> | Hne].
  - exfalso. apply Hno. by left.
  - rewrite IH; [reflexivity |]. intros Hin. apply Hno. by right.
Qed.

(** X25. [call_tool] finds the handler by the part of the tool name
    before its first dot and the part after it: a name without a dot is
    refused as an invalid format; for [category.operation] with no dot
    in [category] (the operation may hold further dots), an unknown
    category and an operation missing from the tool's operation_map are
    each refused with their own error and the world untouched, and
    otherwise the handler registered for the operation runs, with an
    empty parameter dict when none was given. *)
Theorem call_tool_dispatches_on_the_first_dot
    (tools : gmap string (Tool (W := W) (A := A)))
    (parameters : option (list (string * Audit.pyobj))) (w : W) :
  (forall tool_name,
      ~ In "."%char (list_ascii_of_string tool_name) ->
      call_tool tools tool_name parameters w
      = (Raise (Exception ("Invalid tool name format: " ++ tool_name)), w)) /\
  (forall category operation,
      ~ In "."%char (list_ascii_of_string category) ->
      call_tool tools (category ++ "." ++ operation) parameters w
      = match tools !! category with
        | None => (Raise (Exception ("Unknown tool category: " ++ category)), w)
        | Some tool =>
          match operation_map tool !! operation with
          | None =>
            (Raise (Exception ("Unknown " ++ label tool ++ " operation: " ++ operation)),
             w)
          | Some handler => handler (default [] parameters) w
          end
        end).
Proof.
  split.
  - intros tool_name Hno. unfold call_tool. by rewrite split_once_dotless.
  - intros category operation Hno. unfold call_tool.
    rewrite split_once_first_dot by done.
    destruct (tools !! category) as [tool |]; [| reflexivity].
    reflexivity.
Qed.
End ServerFacts.
